(** * mcp-ts: a shallow embedding of the client (client.ts) and of the
    server (main.ts), and the properties of their specification.

    The client talks to its operator, to the model endpoint and to the MCP
    server; it is embedded as a program over a signature of calls ([Prog]),
    run against an arbitrary environment that answers each call from the
    history of the session. The server's handlers are embedded over an
    explicit server state (the cached JSON module and the file on disk)
    with JavaScript exceptions as an error result. *)

From Stdlib Require Import String Ascii List ZArith Lia Bool DecimalString DecimalPos.
Import ListNotations.
Open Scope list_scope.
Open Scope string_scope.

Set Implicit Arguments.
Set Warnings "-register-all".

(** ** JavaScript values and built-ins used by the two programs *)

Module JS.

(** A rejected promise or a thrown value, reduced to its message
    ([error instanceof Error ? error.message : String(error)]). *)
Definition JSError := string.

(** The outcome of an operation that may throw. *)
Definition JSResult (A : Type) : Type := (JSError + A)%type.

Definition ok {A} (a : A) : JSResult A := inr a.
Definition throw {A} (e : JSError) : JSResult A := inl e.

Definition nl : string := String "010"%char "".

(** Truthiness of a string: only the empty string is falsy. *)
Definition truthy (s : string) : bool :=
  match s with
  | EmptyString => false
  | String _ _ => true
  end.

(** [a || b] on strings. *)
Definition or_else (a b : string) : string := if truthy a then a else b.

(** [a || b] where [a] may be [undefined]. *)
Definition opt_or_else (a : option string) (b : string) : string :=
  match a with
  | Some s => or_else s b
  | None => b
  end.

(** [Array.prototype.join] on an array of strings. *)
Definition join (sep : string) (l : list string) : string := String.concat sep l.

(** A value inside a template literal, [undefined] included. *)
Definition template (a : option string) : string :=
  match a with
  | Some s => s
  | None => "undefined"
  end.

(** JSON values. A number is a double of the runtime. [JNum n] is the
    integer [n], which a double holds exactly, and prints digit for digit,
    up to 2^53 in magnitude: the ids of the user store, array lengths plus
    one, are such numbers. [JReal text] is any other number (one that is
    not an integer, or an integer beyond 2^53), kept as the text that the
    runtime prints for it: the programs print such a number, test whether
    it is truthy and compare it with integers, and do nothing else with
    it. [well_formed], below, tells the values that are checked to stand
    for values of the runtime. *)
Inductive JSON : Type :=
| JNull
| JBool (b : bool)
| JNum (n : Z)
| JReal (text : string)
| JStr (s : string)
| JArr (items : list JSON)
| JObj (fields : list (string * JSON)).

Definition Z_to_string (n : Z) : string := NilZero.string_of_int (Z.to_int n).

(** *** Objects: own enumerable properties in enumeration order *)

Fixpoint obj_get {V} (fields : list (string * V)) (k : string) : option V :=
  match fields with
  | [] => None
  | (k', v) :: rest => if k' =? k then Some v else obj_get rest k
  end.

Definition is_digit (c : ascii) : bool :=
  let n := nat_of_ascii c in (48 <=? n)%nat && (n <=? 57)%nat.

Fixpoint all_digits (s : string) : bool :=
  match s with
  | EmptyString => true
  | String c r => is_digit c && all_digits r
  end.

Fixpoint digits_value (acc : Z) (s : string) : Z :=
  match s with
  | EmptyString => acc
  | String c r => digits_value (acc * 10 + Z.of_nat (nat_of_ascii c - 48)) r
  end.

(** A canonical array index: these keys are enumerated first, in
    ascending numeric order, whatever their insertion order. *)
Definition array_index (k : string) : option Z :=
  match k with
  | EmptyString => None
  | String c r =>
      if all_digits k && ((k =? "0") || negb (Ascii.eqb c "0"%char))
      then let n := digits_value 0 k in
           if (n <? 4294967295)%Z then Some n else None
      else None
  end.

(** Append a fresh property where the enumeration order puts it. *)
Fixpoint obj_insert_new {V} (fields : list (string * V)) (k : string) (v : V)
  : list (string * V) :=
  match fields with
  | [] => [(k, v)]
  | (k', v') :: rest =>
      match array_index k, array_index k' with
      | Some n, Some n' =>
          if (n <? n')%Z then (k, v) :: fields
          else (k', v') :: obj_insert_new rest k v
      | Some _, None => (k, v) :: fields
      | None, _ => (k', v') :: obj_insert_new rest k v
      end
  end.

Fixpoint obj_replace {V} (fields : list (string * V)) (k : string) (v : V)
  : list (string * V) :=
  match fields with
  | [] => []
  | (k', v') :: rest =>
      if k' =? k then (k, v) :: rest else (k', v') :: obj_replace rest k v
  end.

(** [obj[k] = v]: an existing property keeps its place. *)
Definition obj_set {V} (fields : list (string * V)) (k : string) (v : V)
  : list (string * V) :=
  match obj_get fields k with
  | Some _ => obj_replace fields k v
  | None => obj_insert_new fields k v
  end.

Fixpoint string_chars (s : string) : list string :=
  match s with
  | EmptyString => []
  | String c r => String c "" :: string_chars r
  end.

Fixpoint indexed {A} (i : nat) (l : list A) : list (string * A) :=
  match l with
  | [] => []
  | x :: r => (Z_to_string (Z.of_nat i), x) :: indexed (S i) r
  end.

(** The own enumerable properties copied by a spread [...v]. *)
Definition own_properties (v : JSON) : list (string * JSON) :=
  match v with
  | JObj fields => fields
  | JArr items => indexed 0 items
  | JStr s => indexed 0 (map JStr (string_chars s))
  | _ => []
  end.

(** [{ ...base, ...v }] on top of an object under construction. *)
Definition obj_spread (base : list (string * JSON)) (v : JSON)
  : list (string * JSON) :=
  fold_left (fun acc kv => obj_set acc (fst kv) (snd kv)) (own_properties v) base.

(** *** Property access *)

Definition type_error_undefined (k : string) : JSError :=
  "Cannot read properties of undefined (reading '" ++ k ++ "')".

Definition type_error_null (k : string) : JSError :=
  "Cannot read properties of null (reading '" ++ k ++ "')".

(** [v.k] for a JSON value [v]; [None] is [undefined]. *)
Definition get_prop (v : JSON) (k : string) : JSResult (option JSON) :=
  match v with
  | JNull => throw (type_error_null k)
  | JObj fields => ok (obj_get fields k)
  | JArr items =>
      if k =? "length" then ok (Some (JNum (Z.of_nat (length items))))
      else match array_index k with
           | Some n => ok (nth_error items (Z.to_nat n))
           | None => ok None
           end
  | JStr s =>
      if k =? "length" then ok (Some (JNum (Z.of_nat (String.length s))))
      else match array_index k with
           | Some n => ok (option_map JStr (nth_error (string_chars s) (Z.to_nat n)))
           | None => ok None
           end
  | JBool _ | JNum _ | JReal _ => ok None
  end.

(** [v.k] where [v] itself may be [undefined]. *)
Definition get_prop_opt (v : option JSON) (k : string) : JSResult (option JSON) :=
  match v with
  | None => throw (type_error_undefined k)
  | Some j => get_prop j k
  end.

(** [v === n] for a number [n]. *)
Definition strict_eq_num (v : option JSON) (n : Z) : bool :=
  match v with
  | Some (JNum m) => (m =? n)%Z
  | _ => false
  end.

(** Truthiness of a value that may be [undefined]. *)
Definition truthy_value (v : option JSON) : bool :=
  match v with
  | None | Some JNull => false
  | Some (JBool b) => b
  | Some (JNum n) => negb (n =? 0)%Z
  | Some (JReal _) => true
  | Some (JStr s) => truthy s
  | Some (JArr _) | Some (JObj _) => true
  end.

(** [String(v)], as a template literal converts a value. *)
Fixpoint to_string (v : JSON) : string :=
  match v with
  | JNull => "null"
  | JBool true => "true"
  | JBool false => "false"
  | JNum n => Z_to_string n
  | JReal text => text
  | JStr s => s
  | JArr items =>
      join "," (map (fun x => match x with JNull => "" | _ => to_string x end) items)
  | JObj _ => "[object Object]"
  end.

(** *** JSON.stringify(value, null, 2) *)

Definition dquote : string := String (ascii_of_nat 34) "".

Definition hex_digit (n : nat) : ascii :=
  if (n <? 10)%nat then ascii_of_nat (48 + n) else ascii_of_nat (87 + n).

Definition escape_char (c : ascii) : string :=
  let n := nat_of_ascii c in
  if (n =? 34)%nat then "\" ++ dquote
  else if (n =? 92)%nat then "\\"
  else if (n =? 8)%nat then "\b"
  else if (n =? 9)%nat then "\t"
  else if (n =? 10)%nat then "\n"
  else if (n =? 12)%nat then "\f"
  else if (n =? 13)%nat then "\r"
  else if (n <? 32)%nat
       then "\u00" ++ String (hex_digit (n / 16)) (String (hex_digit (n mod 16)) "")
  else String c "".

Fixpoint escape (s : string) : string :=
  match s with
  | EmptyString => ""
  | String c r => escape_char c ++ escape r
  end.

Definition quote (s : string) : string := dquote ++ escape s ++ dquote.

Fixpoint stringify_at (indent : string) (v : JSON) : string :=
  match v with
  | JNull => "null"
  | JBool true => "true"
  | JBool false => "false"
  | JNum n => Z_to_string n
  | JReal text => text
  | JStr s => quote s
  | JArr [] => "[]"
  | JArr items =>
      let inner := indent ++ "  " in
      "[" ++ nl ++ inner
          ++ join ("," ++ nl ++ inner) (map (stringify_at inner) items)
          ++ nl ++ indent ++ "]"
  | JObj [] => "{}"
  | JObj fields =>
      let inner := indent ++ "  " in
      "{" ++ nl ++ inner
          ++ join ("," ++ nl ++ inner)
               (map (fun kv => quote (fst kv) ++ ": " ++ stringify_at inner (snd kv)) fields)
          ++ nl ++ indent ++ "}"
  end.

Definition stringify (v : JSON) : string := stringify_at "" v.

(** *** The values that stand for values of the runtime *)

(** The integers that a double holds exactly, one by one. *)
Definition safe_integer (n : Z) : bool := (Z.abs n <=? 2 ^ 53)%Z.

Fixpoint drop_zeros (s : string) : string :=
  match s with
  | String "0"%char r => drop_zeros r
  | _ => s
  end.

Fixpoint ends_in_zero (s : string) : bool :=
  match s with
  | EmptyString => false
  | String c EmptyString => Ascii.eqb c "0"%char
  | String _ r => ends_in_zero r
  end.

(** The text that the runtime prints for a decimal fraction: a minus sign
    or none, the whole part with no zero in front unless it is zero
    alone, the point, and the decimals up to the last one that is not
    zero. With at most 15 significant digits, and at most five zeros
    right after the point of a fraction below one, such a text is that of
    one double, which is not an integer, is not zero, and which the
    runtime prints as this very text. *)
Definition fraction_text (text : string) : bool :=
  let body := match text with String "-"%char r => r | _ => text end in
  match index 0 "." body with
  | Some k =>
      let whole := substring 0 k body in
      let decimals := substring (S k) (String.length body - S k) body in
      all_digits whole && all_digits decimals
      && negb (whole =? "") && negb (decimals =? "") && negb (ends_in_zero decimals)
      && (if whole =? "0"
          then (String.length decimals - String.length (drop_zeros decimals) <=? 5)%nat
               && (String.length (drop_zeros decimals) <=? 15)%nat
          else negb (prefix "0" whole)
               && (String.length whole + String.length decimals <=? 15)%nat)
  | None => false
  end.

(** A value stands for a value of the runtime, and prints as the runtime
    prints it, when every [JNum] in it is within the integers held
    exactly and every [JReal] in it is the text of a decimal fraction as
    above. *)
Fixpoint well_formed (v : JSON) : bool :=
  match v with
  | JNum n => safe_integer n
  | JReal text => fraction_text text
  | JArr items => forallb well_formed items
  | JObj fields => forallb (fun kv => well_formed (snd kv)) fields
  | _ => true
  end.

(** *** parseInt(string) *)

Inductive Number : Type :=
| NaN
| Int (n : Z).

(** The white space that [parseInt] and [trim] strip is that of the
    runtime, WhiteSpace and LineTerminator. A text is held as the bytes of
    its UTF-8 form: the white space of ASCII is one byte, U+00A0 is two,
    and U+1680, U+2000 to U+200A, U+2028, U+2029, U+202F, U+205F, U+3000
    and U+FEFF are three. *)
Definition is_space (c : ascii) : bool :=
  let n := nat_of_ascii c in
  (n =? 32)%nat || ((9 <=? n)%nat && (n <=? 13)%nat).

(** The first byte of a white space character beyond ASCII. *)
Definition space_lead (c : ascii) : bool :=
  let n := nat_of_ascii c in
  ((n =? 194) || (n =? 225) || (n =? 226) || (n =? 227) || (n =? 239))%nat.

Definition space2 (c1 c2 : ascii) : bool :=
  ((nat_of_ascii c2 =? 160) && (nat_of_ascii c1 =? 194))%nat.

Definition space3 (c1 c2 c3 : ascii) : bool :=
  let a := nat_of_ascii c1 in
  let b := nat_of_ascii c2 in
  let c := nat_of_ascii c3 in
  ((128 <=? c)
   && (((a =? 225) && (b =? 154) && (c =? 128))
       || ((a =? 226) && (b =? 128)
           && ((c <=? 138) || (c =? 168) || (c =? 169) || (c =? 175)))
       || ((a =? 226) && (b =? 129) && (c =? 159))
       || ((a =? 227) && (b =? 128) && (c =? 128))
       || ((a =? 239) && (b =? 187) && (c =? 191))))%nat.

Fixpoint skip_spaces (s : string) : string :=
  match s with
  | EmptyString => s
  | String c1 r1 =>
      if is_space c1 then skip_spaces r1
      else if space_lead c1 then
        match r1 with
        | String c2 r2 =>
            if space2 c1 c2 then skip_spaces r2
            else match r2 with
                 | String c3 r3 => if space3 c1 c2 c3 then skip_spaces r3 else s
                 | EmptyString => s
                 end
        | EmptyString => s
        end
      else s
  end.

Definition digit_of (radix : Z) (c : ascii) : option Z :=
  let n := Z.of_nat (nat_of_ascii c) in
  let d := (if (48 <=? n) && (n <=? 57) then Some (n - 48)
            else if (97 <=? n) && (n <=? 122) then Some (n - 87)
            else if (65 <=? n) && (n <=? 90) then Some (n - 55)
            else None)%Z in
  match d with
  | Some x => if (x <? radix)%Z then Some x else None
  | None => None
  end.

(** The longest prefix of digits of the radix, as a number; [None] when
    there is no digit at all. *)
Fixpoint parse_digits (radix : Z) (acc : option Z) (s : string) : option Z :=
  match s with
  | EmptyString => acc
  | String c r =>
      match digit_of radix c with
      | Some d =>
          parse_digits radix
            (Some (match acc with Some a => a * radix + d | None => d end)%Z) r
      | None => acc
      end
  end.

Definition strip_sign (s : string) : Z * string :=
  match s with
  | String "-"%char r => ((-1)%Z, r)
  | String "+"%char r => (1%Z, r)
  | _ => (1%Z, s)
  end.

Definition strip_hex_prefix (s : string) : Z * string :=
  match s with
  | String "0"%char (String "x"%char r) => (16%Z, r)
  | String "0"%char (String "X"%char r) => (16%Z, r)
  | _ => (10%Z, s)
  end.

(** [parseInt] with no radix. The result is the integer read, held
    exactly; it is the number of the runtime as long as that integer is
    within 2^53 in magnitude ([safe_number]), beyond which the runtime
    rounds to a double. *)
Definition parseInt (s : string) : Number :=
  let '(sign, s1) := strip_sign (skip_spaces s) in
  let '(radix, s2) := strip_hex_prefix s1 in
  match parse_digits radix None s2 with
  | Some n => Int (sign * n)
  | None => NaN
  end.

Definition safe_number (n : Number) : bool :=
  match n with
  | NaN => true
  | Int z => safe_integer z
  end.

(** [v === parseInt(...)]: [NaN] equals nothing. *)
Definition strict_eq_number (v : option JSON) (n : Number) : bool :=
  match n with
  | NaN => false
  | Int z => strict_eq_num v z
  end.

(** *** String.prototype.replace with a string pattern, and the
    placeholder pattern of URI templates *)

(** The replacement text: [$$], [$&], [$`] and [$'] are special. *)
Fixpoint expand_replacement (rep matched before after : string) : string :=
  match rep with
  | EmptyString => ""
  | String c r =>
      if Ascii.eqb c "$"%char then
        match r with
        | String d r' =>
            if Ascii.eqb d "$"%char then "$" ++ expand_replacement r' matched before after
            else if Ascii.eqb d "&"%char then matched ++ expand_replacement r' matched before after
            else if Ascii.eqb d "`"%char then before ++ expand_replacement r' matched before after
            else if Ascii.eqb d "'"%char then after ++ expand_replacement r' matched before after
            else String c (expand_replacement r matched before after)
        | EmptyString => String c ""
        end
      else String c (expand_replacement r matched before after)
  end.

(** [s.replace(pat, rep)]: the first occurrence only. *)
Definition replace_first (s pat rep : string) : string :=
  match index 0 pat s with
  | None => s
  | Some i =>
      let before := substring 0 i s in
      let after := substring (i + String.length pat) (String.length s) s in
      before ++ expand_replacement rep pat before after ++ after
  end.

(** The text up to the first closing brace, and what follows it. *)
Fixpoint until_close (s : string) : option (string * string) :=
  match s with
  | EmptyString => None
  | String c r =>
      if Ascii.eqb c "}"%char then Some ("", r)
      else match until_close r with
           | Some (body, rest) => Some (String c body, rest)
           | None => None
           end
  end.

Fixpoint scan_placeholders (fuel : nat) (s : string) : list string :=
  match fuel with
  | O => []
  | S fuel' =>
      match s with
      | EmptyString => []
      | String c r =>
          if Ascii.eqb c "{"%char then
            match until_close r with
            | Some (String b body, rest) =>
                ("{" ++ String b body ++ "}") :: scan_placeholders fuel' rest
            | _ => scan_placeholders fuel' r
            end
          else scan_placeholders fuel' r
      end
  end.

(** [s.match(/{([^}]+)}/g)], with [null] as the empty list. *)
Definition match_placeholders (s : string) : list string :=
  scan_placeholders (String.length s) s.

End JS.


Import JS.

(** ** Protocol data shared by the client and the server *)

Module Protocol.

Inductive Content : Type :=
| TextContent (text : string)
| ImageContent (data mimeType : string)
| AudioContent (data mimeType : string)
| ResourceContent (uri : string).

(** The [type] tag of a content part. *)
Definition content_type (c : Content) : string :=
  match c with
  | TextContent _ => "text"
  | ImageContent _ _ => "image"
  | AudioContent _ _ => "audio"
  | ResourceContent _ => "resource"
  end.

Record PromptMessage : Type := {
  role : string;
  content : Content
}.

(** [request.params] of a sampling request. *)
Record CreateMessageParams : Type := {
  messages : list PromptMessage;
  maxTokens : Z
}.

Record CreateMessageResult : Type := {
  result_role : string;
  result_model : string;
  stopReason : string;
  result_content : Content
}.

Record SchemaProperty : Type := {
  property_type : option string
}.

Record InputSchema : Type := {
  properties : option (list (string * SchemaProperty))
}.

Record Tool : Type := {
  tool_name : string;
  annotations_title : option string;
  tool_description : option string;
  inputSchema : InputSchema
}.

Record Resource : Type := {
  resource_name : string;
  resource_uri : string;
  resource_description : option string
}.

Record ResourceTemplate : Type := {
  template_name : string;
  uriTemplate : string;
  template_description : option string
}.

Record Prompt : Type := {
  prompt_name : string;
  prompt_description : option string;
  prompt_arguments : option (list string)
}.

(** One part of a tool result; [text] is there on text parts only. *)
Record ContentPart : Type := {
  part_type : string;
  part_text : option string
}.

Record CallToolResult : Type := {
  tool_content : list ContentPart
}.

Record ResourceContents : Type := {
  contents_uri : string;
  contents_text : option string;
  contents_mimeType : option string
}.

Record ReadResourceResult : Type := {
  contents : list ResourceContents
}.

Record GetPromptResult : Type := {
  prompt_messages : list PromptMessage
}.

Definition text_part (t : string) : ContentPart :=
  {| part_type := "text"; part_text := Some t |}.

End Protocol.

(** ** The client (client.ts) *)

Module Client.

Import Protocol.

(** The capabilities listed at connect time. *)
Record Snapshot : Type := {
  tools : list Tool;
  resources : list Resource;
  resourceTemplates : list ResourceTemplate;
  prompts : list Prompt
}.

(** *** The model endpoint (generateText of the ai package) *)

(** An entry of the tool set: [execute] forwards to [callTool] under the
    name kept in [execute_name]. *)
Record ToolSetEntry : Type := {
  entry_description : string;
  entry_parameters : InputSchema;
  execute_name : string
}.

Definition ToolSet : Type := list (string * ToolSetEntry).

Record GenerateTextOptions : Type := {
  gen_model : string;
  gen_prompt : string;
  gen_maxTokens : Z;
  gen_tools : option ToolSet
}.

Record ToolResultEntry : Type := {
  toolName : string;
  result : option CallToolResult
}.

Record GenerateTextResult : Type := {
  text : string;
  toolResults : list ToolResultEntry
}.

(** *** Calls to the environment *)

Inductive Capability : Type := Tools | Resources | ResourceTemplates | Prompts.

Record Choice : Type := {
  choice_name : string;
  choice_value : string;
  choice_description : option string
}.

(** What the client awaits from its environment: the transport, the
    operator at the terminal, the model endpoint and the console. The
    index is the type of the answer. [ListRequest] sends one discovery
    request and leaves its promise pending; [PromiseAll] is the join of
    the four pending promises. *)
Inductive Call : Type -> Type :=
| Connect : Call (JSResult unit)
| ListRequest (kind : Capability) : Call unit
| PromiseAll : Call (JSResult Snapshot)
| SetRequestHandler (method : string) : Call unit
| ConsoleLog (line : string) : Call unit
| ConsoleError (line : string) : Call unit
| Select (message : string) (choices : list Choice) : Call string
| Input (message : string) : Call string
| Confirm (message : string) (default : bool) : Call bool
| GenerateText (options : GenerateTextOptions) : Call (JSResult GenerateTextResult)
| CallTool (name : string) (arguments : list (string * string)) : Call (JSResult CallToolResult)
| ReadResource (uri : string) : Call (JSResult ReadResourceResult)
| GetPrompt (name : string) (arguments : list (string * string)) : Call (JSResult GetPromptResult).

(** An asynchronous function: it returns, throws, or awaits a call and
    goes on with the answer. *)
Inductive Prog (A : Type) : Type :=
| Ret (a : A)
| Throw (e : JSError)
| Vis {X : Type} (c : Call X) (k : X -> Prog A).

Arguments Ret {A} a.
Arguments Throw {A} e.
Arguments Vis {A X} c k.

Fixpoint bind {A B} (p : Prog A) (f : A -> Prog B) : Prog B :=
  match p with
  | Ret a => f a
  | Throw e => Throw e
  | Vis c k => Vis c (fun x => bind (k x) f)
  end.

Notation "x <- p ;; k" := (bind p (fun x => k))
  (at level 61, p at next level, right associativity).
Notation "p ;;; k" := (bind p (fun _ => k))
  (at level 61, right associativity).

(** A call that cannot fail. *)
Definition perform {X} (c : Call X) : Prog X := Vis c (fun x => Ret x).

(** A call whose promise may reject: the rejection is thrown. *)
Definition await {X} (c : Call (JSResult X)) : Prog X :=
  Vis c (fun r => match r with inl e => Throw e | inr x => Ret x end).

(** *** Running a program against an environment *)

(** A call together with the answer it got. *)
Inductive Event : Type :=
| Ev {X : Type} (c : Call X) (answer : X).

(** The environment answers each call from the history of the session. *)
Record Env : Type := {
  on_connect : list Event -> JSResult unit;
  on_discovery : list Event -> JSResult Snapshot;
  on_select : list Event -> string -> list Choice -> string;
  on_input : list Event -> string -> string;
  on_confirm : list Event -> string -> bool -> bool;
  on_generateText : list Event -> GenerateTextOptions -> JSResult GenerateTextResult;
  on_callTool : list Event -> string -> list (string * string) -> JSResult CallToolResult;
  on_readResource : list Event -> string -> JSResult ReadResourceResult;
  on_getPrompt : list Event -> string -> list (string * string) -> JSResult GetPromptResult
}.

Definition answer (env : Env) (h : list Event) {X} (c : Call X) : X :=
  match c in Call X return X with
  | Connect => on_connect env h
  | ListRequest _ => tt
  | PromiseAll => on_discovery env h
  | SetRequestHandler _ => tt
  | ConsoleLog _ => tt
  | ConsoleError _ => tt
  | Select m cs => on_select env h m cs
  | Input m => on_input env h m
  | Confirm m d => on_confirm env h m d
  | GenerateText o => on_generateText env h o
  | CallTool n a => on_callTool env h n a
  | ReadResource u => on_readResource env h u
  | GetPrompt n a => on_getPrompt env h n a
  end.

Inductive Outcome (A : Type) : Type :=
| Returned (a : A)
| Thrown (e : JSError).

Arguments Returned {A} a.
Arguments Thrown {A} e.

(** [run env h p]: the events of [p] started after history [h], oldest
    first, and how [p] ends. *)
Fixpoint run {A} (env : Env) (h : list Event) (p : Prog A) : list Event * Outcome A :=
  match p with
  | Ret a => ([], Returned a)
  | Throw e => ([], Thrown e)
  | Vis c k =>
      let x := answer env h c in
      let '(t, o) := run env (h ++ [Ev c x])%list (k x) in
      (Ev c x :: t, o)
  end.

Definition trace {A} (env : Env) (h : list Event) (p : Prog A) : list Event :=
  fst (run env h p).

Definition outcome {A} (env : Env) (h : list Event) (p : Prog A) : Outcome A :=
  snd (run env h p).

(** *** The sampling bridge *)

Definition model_id : string := "gemini-2.0-flash".

Definition cancelled_marker : string := "Prompt execution cancelled.".

Definition unsupported_marker (c : Content) : string :=
  "Unsupported content type: " ++ content_type c.

Definition handleServerMessagePrompt (message : PromptMessage) : Prog string :=
  match content message with
  | TextContent t =>
      perform (ConsoleLog t) ;;;
      run_it <- perform (Confirm "Do you want to run this prompt?" true) ;;
      if negb run_it then Ret cancelled_marker
      else
        r <- await (GenerateText {| gen_model := model_id;
                                    gen_prompt := t;
                                    gen_maxTokens := 1024;
                                    gen_tools := None |}) ;;
        Ret (text r)
  | c => Ret (unsupported_marker c)
  end.

(** The loop of the request handler: [texts] is the array built so far. *)
Fixpoint collect_texts (msgs : list PromptMessage) (texts : list string)
  : Prog (list string) :=
  match msgs with
  | [] => Ret texts
  | message :: rest =>
      t <- handleServerMessagePrompt message ;;
      collect_texts rest (if truthy t then (texts ++ [t])%list else texts)
  end.

(** The handler registered for [CreateMessageRequestSchema]. *)
Definition createMessageHandler (request : CreateMessageParams) : Prog CreateMessageResult :=
  texts <- collect_texts (messages request) [] ;;
  Ret {| result_role := "user";
         result_model := "google/gemini-2.0-flash";
         stopReason := "endTurn";
         result_content := TextContent (join nl texts) |}.

(** *** The agent loop *)

Definition no_description : string := "No description available".

Definition no_response : string := "No response generated.".

(** [tools.reduce((obj, tool) => ({...obj, [tool.name]: {...}}), {})] *)
Definition toolSet (ts : list Tool) : ToolSet :=
  fold_left
    (fun obj tool =>
       obj_set obj (tool_name tool)
         {| entry_description := opt_or_else (tool_description tool) no_description;
            entry_parameters := inputSchema tool;
            execute_name := tool_name tool |})
    ts [].

(** [toolResults[0]?.result?.content[0]?.text] *)
Definition first_result_text (rs : list ToolResultEntry) : option string :=
  match rs with
  | [] => None
  | r :: _ =>
      match result r with
      | None => None
      | Some res =>
          match tool_content res with
          | [] => None
          | part :: _ => part_text part
          end
      end
  end.

(** [text || toolResults[0]?.result?.content[0]?.text || "No response generated."] *)
Definition query_answer (r : GenerateTextResult) : string :=
  or_else (text r) (opt_or_else (first_result_text (toolResults r)) no_response).

Definition handleQuery (ts : list Tool) : Prog unit :=
  query <- perform (Input "Enter your query:") ;;
  r <- await (GenerateText {| gen_model := model_id;
                              gen_prompt := query;
                              gen_maxTokens := 1024;
                              gen_tools := Some (toolSet ts) |}) ;;
  perform (ConsoleLog ("Query response: " ++ query_answer r)).

(** *** The manual branches of the menu *)

(** The loop over [Object.entries(tool.inputSchema.properties ?? {})]. *)
Fixpoint tool_arguments (props : list (string * SchemaProperty))
  (args : list (string * string)) : Prog (list (string * string)) :=
  match props with
  | [] => Ret args
  | (key, value) :: rest =>
      v <- perform (Input ("Enter value for " ++ key ++ " ("
                           ++ template (property_type value) ++ "):")) ;;
      tool_arguments rest (obj_set args key v)
  end.

Definition handleTool (tool : Tool) : Prog unit :=
  perform (ConsoleLog ("Handling tool: " ++ tool_name tool)) ;;;
  args <- tool_arguments
            (match properties (inputSchema tool) with Some ps => ps | None => [] end) [] ;;
  res <- await (CallTool (tool_name tool) args) ;;
  match tool_content res with
  | [] => Throw (type_error_undefined "text")
  | part :: _ => perform (ConsoleLog ("Tool response: " ++ template (part_text part)))
  end.

(** The loop over the placeholders of a template: [finalUri] is the URI
    substituted so far. *)
Fixpoint substitute_placeholders (paramMatches : list string) (finalUri : string)
  : Prog string :=
  match paramMatches with
  | [] => Ret finalUri
  | paramMatch :: rest =>
      let paramName := replace_first (replace_first paramMatch "{" "") "}" "" in
      paramValue <- perform (Input ("Enter value for " ++ paramName ++ ":")) ;;
      substitute_placeholders rest (replace_first finalUri paramMatch paramValue)
  end.

Fixpoint prompt_arguments_loop (names : list string) (args : list (string * string))
  : Prog (list (string * string)) :=
  match names with
  | [] => Ret args
  | name :: rest =>
      v <- perform (Input ("Enter value for " ++ name ++ ":")) ;;
      prompt_arguments_loop rest (obj_set args name v)
  end.

Fixpoint show_prompt_messages (msgs : list PromptMessage) : Prog unit :=
  match msgs with
  | [] => Ret tt
  | message :: rest =>
      t <- handleServerMessagePrompt message ;;
      perform (ConsoleLog ("Prompt response: " ++ t)) ;;;
      show_prompt_messages rest
  end.

Definition handlePrompt (prompt : Prompt) : Prog unit :=
  perform (ConsoleLog ("Handling prompt: " ++ prompt_name prompt)) ;;;
  args <- prompt_arguments_loop
            (match prompt_arguments prompt with Some l => l | None => [] end) [] ;;
  res <- await (GetPrompt (prompt_name prompt) args) ;;
  show_prompt_messages (prompt_messages res).

(** How the menu loop stands when the model stops following it. *)
Inductive Session : Type :=
| Exited
| Looping.

Definition plain_choice (s : string) : Choice :=
  {| choice_name := s; choice_value := s; choice_description := None |}.

Definition tool_choice (tool : Tool) : Choice :=
  {| choice_name := opt_or_else (annotations_title tool) (tool_name tool);
     choice_value := tool_name tool;
     choice_description := Some (opt_or_else (tool_description tool) no_description) |}.

Definition resource_choice (r : Resource) : Choice :=
  {| choice_name := resource_name r;
     choice_value := resource_uri r;
     choice_description := Some (opt_or_else (resource_description r) no_description) |}.

Definition template_choice (t : ResourceTemplate) : Choice :=
  {| choice_name := template_name t;
     choice_value := uriTemplate t;
     choice_description := Some (opt_or_else (template_description t) no_description) |}.

Definition prompt_choice (p : Prompt) : Choice :=
  {| choice_name := prompt_name p;
     choice_value := prompt_name p;
     choice_description := Some (opt_or_else (prompt_description p) no_description) |}.

(** [resources.find(...)?.uri ?? resourceTemplates.find(...)?.uriTemplate] *)
Definition find_resource (s : Snapshot) (resourceUri : string) : option string :=
  match find (fun r => resource_uri r =? resourceUri) (resources s) with
  | Some r => Some (resource_uri r)
  | None =>
      option_map uriTemplate
        (find (fun t => uriTemplate t =? resourceUri) (resourceTemplates s))
  end.

Definition sampling_method : string := "sampling/createMessage".

Section Runtime.

(** [JSON.parse], a built-in of the runtime. *)
Variable JSON_parse : string -> JSResult JSON.

Definition handleResource (uri : string) : Prog unit :=
  perform (ConsoleLog ("Handling resource: " ++ uri)) ;;;
  finalUri <- substitute_placeholders (match_placeholders uri) uri ;;
  res <- await (ReadResource finalUri) ;;
  match contents res with
  | [] => Throw (type_error_undefined "text")
  | c :: _ =>
      match JSON_parse (template (contents_text c)) with
      | inl e => Throw e
      | inr v => perform (ConsoleLog ("Resource response: " ++ stringify v))
      end
  end.

(** The [while (true)] of [main], followed for [fuel] turns of the menu. *)
Fixpoint menu (fuel : nat) (s : Snapshot) : Prog Session :=
  match fuel with
  | O => Ret Looping
  | S fuel' =>
      option <- perform (Select "Select an option"
                           (map plain_choice ["Query"; "Tools"; "Resources"; "Prompts"; "Exit"])) ;;
      if option =? "Query" then
        handleQuery (tools s) ;;; menu fuel' s
      else if option =? "Tools" then
        toolName <- perform (Select "Select a tool" (map tool_choice (tools s))) ;;
        perform (ConsoleLog ("Selected tool: " ++ toolName)) ;;;
        match find (fun t => tool_name t =? toolName) (tools s) with
        | None => perform (ConsoleError "Tool not found") ;;; menu fuel' s
        | Some tool => handleTool tool ;;; menu fuel' s
        end
      else if option =? "Resources" then
        resourceUri <- perform (Select "Select a resource"
                                  (map resource_choice (resources s)
                                   ++ map template_choice (resourceTemplates s))%list) ;;
        perform (ConsoleLog ("Selected resource: " ++ resourceUri)) ;;;
        match find_resource s resourceUri with
        | Some (String c r) => handleResource (String c r) ;;; menu fuel' s
        | _ => perform (ConsoleError "Resource not found") ;;; menu fuel' s
        end
      else if option =? "Prompts" then
        promptName <- perform (Select "Select a prompt" (map prompt_choice (prompts s))) ;;
        perform (ConsoleLog ("Selected prompt: " ++ promptName)) ;;;
        match find (fun p => prompt_name p =? promptName) (prompts s) with
        | None => perform (ConsoleError "Prompt not found") ;;; menu fuel' s
        | Some prompt => handlePrompt prompt ;;; menu fuel' s
        end
      else if option =? "Exit" then
        perform (ConsoleLog "Exiting...") ;;; Ret Exited
      else menu fuel' s
  end.

Definition main (fuel : nat) : Prog Session :=
  await Connect ;;;
  perform (ListRequest Tools) ;;;
  perform (ListRequest Resources) ;;;
  perform (ListRequest ResourceTemplates) ;;;
  perform (ListRequest Prompts) ;;;
  snapshot <- await PromiseAll ;;
  perform (SetRequestHandler sampling_method) ;;;
  perform (ConsoleLog "Connected!") ;;;
  menu fuel snapshot.

End Runtime.

End Client.

(** ** The server (main.ts) *)

Module Server.

Import Protocol.

(** *** Server state and environment *)

(** [users_module] is the default export of the module [./data/users.json]
    once it has been imported: every later [import()] resolves to the same
    module, so every handler holds the same value, and [push] on it is seen
    by all. [users_file] is the text of the file on disk. [stdout] is what
    [console.log] wrote. *)
Record Store : Type := {
  users_module : option JSON;
  users_file : option string;
  stdout : list string
}.

Inductive FetchOutcome : Type :=
| FetchRejected (e : JSError)
| Response (json : JSResult JSON).

(** What lies outside the server process: the geocoding service, the file
    system under [writeFile], and the client that answers a sampling
    request. [writeFile] opens the file for writing, which empties it,
    and then writes: when it fails, the file holds what it held before
    (it could not be opened), nothing, or a part of the data, and
    [failed_write] tells which, from the path, the data and the old
    content. *)
Record Env : Type := {
  fetch : string -> FetchOutcome;
  writeFile_error : string -> string -> option JSError;
  failed_write : string -> string -> option string -> option string;
  createMessage : CreateMessageParams -> JSResult CreateMessageResult
}.

(** An asynchronous function of the server: it ends in a value or a thrown
    error, and leaves a store. *)
Definition M (A : Type) : Type := Store -> JSResult A * Store.

Definition ret {A} (a : A) : M A := fun st => (ok a, st).

Definition raise {A} (e : JSError) : M A := fun st => (throw e, st).

Definition bind {A B} (m : M A) (f : A -> M B) : M B :=
  fun st =>
    match m st with
    | (inl e, st') => (inl e, st')
    | (inr a, st') => f a st'
    end.

(** [try { body } catch (error) { handler }], with [error] as its message. *)
Definition try_catch {A} (body : M A) (handler : JSError -> M A) : M A :=
  fun st =>
    match body st with
    | (inl e, st') => handler e st'
    | (inr a, st') => (inr a, st')
    end.

Definition lift {A} (r : JSResult A) : M A := fun st => (r, st).

Notation "x <- m ;; k" := (bind m (fun x => k))
  (at level 61, m at next level, right associativity).
Notation "m ;;; k" := (bind m (fun _ => k))
  (at level 61, right associativity).

Definition console_log (line : string) : M unit :=
  fun st => (ok tt, {| users_module := users_module st;
                       users_file := users_file st;
                       stdout := (stdout st ++ [line])%list |}).

Definition text_result (t : string) : CallToolResult :=
  {| tool_content := [text_part t] |}.

Definition users_path : string := "./data/users.json".

Definition json_mime : string := "application/json".

(** [trim]: the white space at both ends is stripped. The end of the
    text is cut where all that follows is white space. *)
Fixpoint trim_end (s : string) : string :=
  match s with
  | EmptyString => ""
  | String c r =>
      match skip_spaces s with
      | EmptyString => ""
      | _ => String c (trim_end r)
      end
  end.

Definition trim (s : string) : string := trim_end (skip_spaces s).

(** [s.replace(/^```json/, "")] *)
Definition strip_fence_open (s : string) : string :=
  if prefix "```json" s then substring 7 (String.length s - 7) s else s.

(** [s.replace(/```$/, "")] *)
Definition strip_fence_close (s : string) : string :=
  let n := String.length s in
  if (3 <=? n)%nat && (substring (n - 3) 3 s =? "```") then substring 0 (n - 3) s else s.

Section Runtime.

(** [JSON.parse], a built-in of the runtime. *)
Variable JSON_parse : string -> JSResult JSON.

(** The email check of the schema library. *)
Variable is_email : string -> bool.

Variable env : Env.

(** [await import("./data/users.json", ...).then(m => m.default)] *)
Definition import_users : M JSON :=
  fun st =>
    match users_module st with
    | Some v => (ok v, st)
    | None =>
        match users_file st with
        | None => (throw ("Cannot find module '" ++ users_path ++ "'"), st)
        | Some txt =>
            match JSON_parse txt with
            | inl e => (throw e, st)
            | inr v => (ok v, {| users_module := Some v;
                                 users_file := users_file st;
                                 stdout := stdout st |})
            end
        end
    end.

(** [users.push(record)]: the array of the module is changed in place. *)
Definition push_user (items : list JSON) (record : JSON) : M unit :=
  fun st => (ok tt, {| users_module := Some (JArr (items ++ [record])%list);
                       users_file := users_file st;
                       stdout := stdout st |}).

(** [await fs.writeFile(path, data)] *)
Definition writeFile (path data : string) : M unit :=
  fun st =>
    match writeFile_error env path data with
    | Some e => (throw e, {| users_module := users_module st;
                            users_file := failed_write env path data (users_file st);
                            stdout := stdout st |})
    | None => (ok tt, {| users_module := users_module st;
                         users_file := Some data;
                         stdout := stdout st |})
    end.

(** *** Resources *)

(** The handler of the resource [users://all]; [href] is [uri.href]. *)
Definition users_resource (href : string) : M ReadResourceResult :=
  users <- import_users ;;
  ret {| contents := [ {| contents_uri := href;
                          contents_text := Some (stringify users);
                          contents_mimeType := Some json_mime |} ] |}.

(** [items.find(u => u.id === n)] *)
Fixpoint find_by_id (items : list JSON) (n : Number) : JSResult (option JSON) :=
  match items with
  | [] => ok None
  | u :: rest =>
      match get_prop u "id" with
      | inl e => throw e
      | inr v => if strict_eq_number v n then ok (Some u) else find_by_id rest n
      end
  end.

Definition users_find (users : JSON) (n : Number) : JSResult (option JSON) :=
  match users with
  | JArr items => find_by_id items n
  | JNull => throw (type_error_null "find")
  | _ => throw "users.find is not a function"
  end.

Definition not_found_body : JSON := JObj [("error", JStr "User not found")].

(** The handler of the template [users://{id}/profile]. *)
Definition user_details (href id : string) : M ReadResourceResult :=
  users <- import_users ;;
  user <- lift (users_find users (parseInt id)) ;;
  if negb (truthy_value user) then
    ret {| contents := [ {| contents_uri := href;
                            contents_text := Some (stringify not_found_body);
                            contents_mimeType := Some json_mime |} ] |}
  else
    ret {| contents := [ {| contents_uri := href;
                            contents_text := option_map stringify user;
                            contents_mimeType := Some json_mime |} ] |}.

(** *** The user store *)

Definition createUser (user : JSON) : M Z :=
  users <- import_users ;;
  match users with
  | JArr items =>
      let id := (Z.of_nat (length items) + 1)%Z in
      push_user items (JObj (obj_spread [("id", JNum id)] user)) ;;;
      writeFile users_path (stringify (JArr (items ++ [JObj (obj_spread [("id", JNum id)] user)])%list)) ;;;
      ret id
  | JNull => raise (type_error_null "length")
  | _ => raise "users.push is not a function"
  end.

(** *** Tools *)

Definition geocoding_url (city : string) : string :=
  "https://geocoding-api.open-meteo.com/v1/search?name=" ++ city
    ++ "&count=10&language=en&format=json".

(** [${v || "unknown"}] *)
Definition or_unknown (v : option JSON) : string :=
  match v with
  | Some j => if truthy_value v then to_string j else "unknown"
  | None => "unknown"
  end.

Definition get_coordinates_body (city : string) : M CallToolResult :=
  data <- lift (match fetch env (geocoding_url city) with
                | FetchRejected e => throw e
                | Response json => json
                end) ;;
  results <- lift (get_prop data "results") ;;
  len <- lift (get_prop_opt results "length") ;;
  if strict_eq_num len 0 then
    ret (text_result ("No data found for " ++ city ++ "."))
  else
    first <- lift (get_prop_opt results "0") ;;
    latitude <- lift (get_prop_opt first "latitude") ;;
    longitude <- lift (get_prop_opt first "longitude") ;;
    ret (text_result ("Data for " ++ city ++ " is " ++ or_unknown latitude
                      ++ " and " ++ or_unknown longitude ++ "!")).

Definition get_coordinates (city : string) : M CallToolResult :=
  try_catch (get_coordinates_body city)
    (fun errorMessage =>
       ret (text_result ("Error fetching coordinates data for " ++ city ++ ": " ++ errorMessage))).

Definition create_user (name email : string) : M CallToolResult :=
  try_catch
    (id <- createUser (JObj [("name", JStr name); ("email", JStr email)]) ;;
     ret (text_result ("User " ++ Z_to_string id ++ " created successfully: "
                       ++ name ++ " (" ++ email ++ ")")))
    (fun errorMessage => ret (text_result ("Error creating user: " ++ errorMessage))).

Definition random_user_request : CreateMessageParams :=
  {| messages :=
       [ {| role := "user";
            content := TextContent "Create a random user with fake data. The user should have a name, a valid email address and a unique int Id. Return this data as a JSON object." |} ];
     maxTokens := 1024 |}.

Definition content_text (c : Content) : option string :=
  match c with
  | TextContent t => Some t
  | _ => None
  end.

Definition create_random_user : M CallToolResult :=
  res <- lift (createMessage env random_user_request) ;;
  console_log (template (content_text (result_content res))) ;;;
  match result_content res with
  | TextContent t =>
      try_catch
        (fakeUser <- lift (JSON_parse (trim (strip_fence_close (strip_fence_open (trim t))))) ;;
         id <- createUser fakeUser ;;
         ret (text_result ("Fake user created successfully: " ++ Z_to_string id)))
        (fun errorMessage => ret (text_result ("Error: " ++ errorMessage)))
  | _ => ret (text_result "Error: Failed to generate fake user data.")
  end.

(** *** The registry boundary *)

Definition is_string (v : option JSON) : bool :=
  match v with
  | Some (JStr _) => true
  | _ => false
  end.

Definition string_of (v : option JSON) : string :=
  match v with
  | Some (JStr s) => s
  | _ => ""
  end.

(** The tool names registered by [server.tool], with the argument maps
    their schemas accept. *)
Definition valid_call (name : string) (args : list (string * JSON)) : bool :=
  if name =? "get-coordinates" then is_string (obj_get args "city")
  else if name =? "create-user" then
    is_string (obj_get args "name") && is_string (obj_get args "email")
    && is_email (string_of (obj_get args "email"))
  else name =? "create-random-user".

(** The handler registered under a valid name, on a valid argument map. *)
Definition tool_handler (name : string) (args : list (string * JSON)) : M CallToolResult :=
  if name =? "get-coordinates" then get_coordinates (string_of (obj_get args "city"))
  else if name =? "create-user" then
    create_user (string_of (obj_get args "name")) (string_of (obj_get args "email"))
  else create_random_user.

(** Modelled from the spec: the registry boundary of [callTool], which is
    the dispatch of the protocol library and not part of main.ts. An
    unknown name or a malformed argument map is a protocol error of that
    call; a failure raised by the handler is caught at the boundary and
    made a text content part describing it. *)
Definition callTool (name : string) (args : list (string * JSON)) : M CallToolResult :=
  if valid_call name args then
    try_catch (tool_handler name args) (fun errorMessage => ret (text_result errorMessage))
  else raise "Invalid params".

End Runtime.

End Server.

(** ** Observations on sessions, and sample environments *)

Module Session.

Import Protocol Client.

(** The operator's answers to the confirmation prompts of a trace. *)
Definition confirm_answers (t : list Event) : list bool :=
  flat_map
    (fun e =>
       match e with
       | @Ev X c a =>
           match c in Call X return X -> list bool with
           | Confirm _ _ => fun b => [b]
           | _ => fun _ => []
           end a
       end) t.

(** The calls to the model endpoint in a trace, each with its outcome. *)
Definition model_calls (t : list Event)
  : list (GenerateTextOptions * JSResult GenerateTextResult) :=
  flat_map
    (fun e =>
       match e with
       | @Ev X c a =>
           match c in Call X
                 return X -> list (GenerateTextOptions * JSResult GenerateTextResult) with
           | GenerateText o => fun r => [(o, r)]
           | _ => fun _ => []
           end a
       end) t.

(** The events of an interactive action: the operator is asked, the model
    is called, or a capability of the server is used. *)
Definition interactive (e : Event) : bool :=
  match e with
  | @Ev _ c _ =>
      match c with
      | Select _ _ | Input _ | Confirm _ _ | GenerateText _
      | CallTool _ _ | ReadResource _ | GetPrompt _ _ => true
      | _ => false
      end
  end.

Definition text_message (t : string) : PromptMessage :=
  {| role := "user"; content := TextContent t |}.

Definition text_payload (t : string) : CreateMessageResult :=
  {| result_role := "user";
     result_model := "google/gemini-2.0-flash";
     stopReason := "endTurn";
     result_content := TextContent t |}.

Definition map_outcome {A B} (f : A -> B) (o : Outcome A) : Outcome B :=
  match o with
  | Returned a => Returned (f a)
  | Thrown e => Thrown e
  end.

(** The number of newline-separated parts of a text. *)
Fixpoint parts (s : string) : nat :=
  match s with
  | EmptyString => 1
  | String c r => if Ascii.eqb c "010"%char then S (parts r) else parts r
  end.

Definition confirm_message : string := "Do you want to run this prompt?".

Definition bridge_options (t : string) : GenerateTextOptions :=
  {| gen_model := model_id; gen_prompt := t; gen_maxTokens := 1024; gen_tools := None |}.

(** The events of one text message that the operator confirms. *)
Definition confirmed_events (t : string) (r : JSResult GenerateTextResult) : list Event :=
  [Ev (ConsoleLog t) tt; Ev (Confirm confirm_message true) true;
   Ev (GenerateText (bridge_options t)) r].

(** The events of one text message that the operator denies. *)
Definition denied_events (t : string) : list Event :=
  [Ev (ConsoleLog t) tt; Ev (Confirm confirm_message true) false].

(** A scripted environment: the operator answers every confirmation with
    [decision], the model answers every call with [reply t] for prompt
    [t], and nothing else fails. *)
Definition scripted (decision : string -> bool)
  (reply : string -> JSResult GenerateTextResult) : Env :=
  {| on_connect := fun _ => ok tt;
     on_discovery := fun _ => ok {| tools := []; resources := [];
                                    resourceTemplates := []; prompts := [] |};
     on_select := fun _ _ _ => "Exit";
     on_input := fun _ _ => "";
     on_confirm := fun h _ _ =>
       match last h (Ev (ConsoleLog "") tt) with
       | @Ev _ (ConsoleLog t) _ => decision t
       | _ => true
       end;
     on_generateText := fun _ o => reply (gen_prompt o);
     on_callTool := fun _ _ _ => ok {| tool_content := [] |};
     on_readResource := fun _ _ => ok {| contents := [] |};
     on_getPrompt := fun _ _ _ => ok {| prompt_messages := [] |} |}.

Definition says (t : string) : JSResult GenerateTextResult :=
  ok {| text := t; toolResults := [] |}.

(** What the bridge asks of the model for a message of the request. *)
Definition bridge_call (request : CreateMessageParams) (o : GenerateTextOptions) : Prop :=
  gen_maxTokens o = 1024%Z
  /\ gen_tools o = None
  /\ exists m, In m (messages request) /\ content m = TextContent (gen_prompt o).

(** The answer to a query, by priority: the final text of the model when
    it is not empty; else the text of the first content part of the first
    tool result when there is one and it is not empty; else the fixed
    message. *)
Definition answer_by_priority (r : GenerateTextResult) : string :=
  if truthy (text r) then text r
  else match first_result_text (toolResults r) with
       | Some s => if truthy s then s else no_response
       | None => no_response
       end.

Definition query_options (query : string) (ts : list Tool) : GenerateTextOptions :=
  {| gen_model := model_id; gen_prompt := query; gen_maxTokens := 1024;
     gen_tools := Some (toolSet ts) |}.

(** A model reply with no final text, after one tool call whose result
    is a single text part holding the empty text. *)
Definition empty_tool_reply : GenerateTextResult :=
  {| text := "";
     toolResults := [ {| toolName := "get-coordinates";
                         result := Some {| tool_content := [text_part ""] |} |} ] |}.

(** The four discovery requests, sent one after the other before any of
    them is awaited. *)
Definition discovery_requests : list Event :=
  [Ev (ListRequest Tools) tt;
   Ev (ListRequest Resources) tt;
   Ev (ListRequest ResourceTemplates) tt;
   Ev (ListRequest Prompts) tt].

(** The events of [main] up to the menu, when nothing fails. *)
Definition startup_events (snapshot : Snapshot) : list Event :=
  [Ev Connect (ok tt);
   Ev (ListRequest Tools) tt;
   Ev (ListRequest Resources) tt;
   Ev (ListRequest ResourceTemplates) tt;
   Ev (ListRequest Prompts) tt;
   Ev PromiseAll (ok snapshot);
   Ev (SetRequestHandler sampling_method) tt;
   Ev (ConsoleLog "Connected!") tt].

(** *** Further observations *)

(** A call to the model that carries no tools: the call of the shared
    display, confirm and invoke path. *)
Definition toolless_model_call (e : Event) : bool :=
  match e with
  | @Ev _ c _ =>
      match c with
      | GenerateText o =>
          match gen_tools o with
          | None => true
          | Some _ => false
          end
      | _ => false
      end
  end.

(** A trace in which every call to the model without tools comes right
    after its own prompt was shown and the operator confirmed it. *)
Inductive Gated : list Event -> Prop :=
| Gated_nil : Gated []
| Gated_confirmed (t : string) (r : JSResult GenerateTextResult) (rest : list Event) :
    Gated rest -> Gated (confirmed_events t r ++ rest)%list
| Gated_other (e : Event) (rest : list Event) :
    toolless_model_call e = false -> Gated rest -> Gated (e :: rest).

(** The error of a call whose promise was rejected. *)
Definition rejection (e : Event) : option JSError :=
  match e with
  | @Ev X c a =>
      match c in Call X return X -> option JSError with
      | Connect => fun r => match r with inl err => Some err | inr _ => None end
      | PromiseAll => fun r => match r with inl err => Some err | inr _ => None end
      | GenerateText _ => fun r => match r with inl err => Some err | inr _ => None end
      | CallTool _ _ => fun r => match r with inl err => Some err | inr _ => None end
      | ReadResource _ => fun r => match r with inl err => Some err | inr _ => None end
      | GetPrompt _ _ => fun r => match r with inl err => Some err | inr _ => None end
      | _ => fun _ => None
      end a
  end.

(** A run that stops at its first rejected call, with that error. *)
Definition fail_fast {A} (t : list Event) (o : Outcome A) : Prop :=
  forall t1 ev t2 e,
    t = (t1 ++ ev :: t2)%list -> rejection ev = Some e -> t2 = [] /\ o = Thrown e.

(** The calls of tools in a trace: name, arguments and outcome. *)
Definition tool_calls (t : list Event)
  : list (string * list (string * string) * JSResult CallToolResult) :=
  flat_map
    (fun e =>
       match e with
       | @Ev X c a =>
           match c in Call X
                 return X -> list (string * list (string * string) * JSResult CallToolResult) with
           | CallTool n args => fun r => [(n, args, r)]
           | _ => fun _ => []
           end a
       end) t.

(** The questions asked with [input] in a trace, each with its answer. *)
Definition inputs (t : list Event) : list (string * string) :=
  flat_map
    (fun e =>
       match e with
       | @Ev X c a =>
           match c in Call X return X -> list (string * string) with
           | Input m => fun v => [(m, v)]
           | _ => fun _ => []
           end a
       end) t.

(** The resources read in a trace. *)
Definition resource_reads (t : list Event) : list string :=
  flat_map
    (fun e =>
       match e with
       | @Ev _ c _ =>
           match c with
           | ReadResource u => [u]
           | _ => []
           end
       end) t.

Definition declared_properties (tool : Tool) : list (string * SchemaProperty) :=
  match properties (inputSchema tool) with
  | Some ps => ps
  | None => []
  end.

Definition toolSet_entry (tool : Tool) : ToolSetEntry :=
  {| entry_description := opt_or_else (tool_description tool) no_description;
     entry_parameters := inputSchema tool;
     execute_name := tool_name tool |}.

(** The character [c] occurs in [s]. *)
Fixpoint has_char (c : ascii) (s : string) : bool :=
  match s with
  | EmptyString => false
  | String d r => Ascii.eqb d c || has_char c r
  end.

Definition count_events (f : Event -> bool) (t : list Event) : nat :=
  length (filter f t).

Definition is_select (e : Event) : bool :=
  match e with
  | @Ev _ c _ => match c with Select _ _ => true | _ => false end
  end.

(** An environment that follows a script of menu choices (then exits),
    types [typed] at every input, confirms every prompt, and whose model
    endpoint and server answer as given. *)
Definition menu_script (choices : list string) (typed : string)
  (reply : JSResult GenerateTextResult) (read : JSResult ReadResourceResult)
  (snapshot : Snapshot) : Env :=
  {| on_connect := fun _ => ok tt;
     on_discovery := fun _ => ok snapshot;
     on_select := fun h _ _ => nth (count_events is_select h) choices "Exit";
     on_input := fun _ _ => typed;
     on_confirm := fun _ _ _ => true;
     on_generateText := fun _ _ => reply;
     on_callTool := fun _ _ _ => ok {| tool_content := [text_part "done"] |};
     on_readResource := fun _ _ => read;
     on_getPrompt := fun _ _ _ => ok {| prompt_messages := [text_message "hello"] |} |}.

Definition coordinates_tool : Tool :=
  {| tool_name := "get-coordinates";
     annotations_title := Some "Get Coordinates";
     tool_description := Some "Tool to get coordinates information";
     inputSchema := {| properties := Some [("city", {| property_type := Some "string" |})] |} |}.

(** A parser that knows nothing. *)
Definition sample_parser (s : string) : JSResult JSON := throw "Unexpected token".

Definition empty_snapshot : Snapshot :=
  {| tools := []; resources := []; resourceTemplates := []; prompts := [] |}.

End Session.

(** ** Observations on the user store, and sample stores *)

Module UserStore.

Import Protocol Server.

(** A user record: an object of the JSON array. *)
Definition is_record (u : JSON) : Prop := exists fields, u = JObj fields.

(** The record [u] has the number [n] as its [id]. *)
Definition has_id (u : JSON) (n : Number) : Prop :=
  exists fields m, u = JObj fields /\ obj_get fields "id" = Some (JNum m) /\ n = Int m.

Definition user_record (id : Z) (name email : string) : JSON :=
  JObj [("id", JNum id); ("name", JStr name); ("email", JStr email)].

Definition json_contents (href : string) (body : JSON) : ReadResourceResult :=
  {| contents := [ {| contents_uri := href;
                      contents_text := Some (stringify body);
                      contents_mimeType := Some json_mime |} ] |}.

(** A handler that always ends in a single text part. *)
Definition texty (m : M CallToolResult) : Prop :=
  forall st, exists t st', m st = (ok (text_result t), st').

(** A handler that ends in a single text part or throws. *)
Definition texty_or_throws (m : M CallToolResult) : Prop :=
  forall st, (exists t st', m st = (ok (text_result t), st'))
             \/ (exists e st', m st = (throw e, st')).

(** A parser that knows the empty array only. *)
Definition sample_parse (s : string) : JSResult JSON :=
  if s =? "[]" then ok (JArr []) else throw "Unexpected token".

Definition sample_is_email (s : string) : bool :=
  match index 0 "@" s with
  | Some _ => true
  | None => false
  end.

(** A world where the geocoding service is down, the disk is full and
    the client refuses to sample. *)
Definition failing_env : Env :=
  {| fetch := fun _ => FetchRejected "fetch failed";
     writeFile_error := fun _ _ => Some "ENOSPC: no space left on device";
     failed_write := fun _ _ _ => Some "";
     createMessage := fun _ => throw "Method not found" |}.

Definition working_env : Env :=
  {| fetch := fun _ => Response (ok (JObj [("results", JArr [JObj [("latitude", JNum 52);
                                                                   ("longitude", JNum 13)]])]));
     writeFile_error := fun _ _ => None;
     failed_write := fun _ _ old => old;
     createMessage := fun _ => throw "Method not found" |}.

Definition two_users : Store :=
  {| users_module :=
       Some (JArr [user_record 1 "Grace" "grace@example.com";
                   user_record 2 "Alan" "alan@example.com"]);
     users_file := None;
     stdout := [] |}.

(** *** Further observations and sample worlds *)


Definition text_reply (t : string) : CreateMessageResult :=
  {| result_role := "user";
     result_model := "google/gemini-2.0-flash";
     stopReason := "endTurn";
     result_content := TextContent t |}.

(** A world whose disk refuses exactly the listing [refused]. *)
Definition flaky_env (refused : string) : Env :=
  {| fetch := fun _ => FetchRejected "fetch failed";
     writeFile_error := fun _ data => if data =? refused then Some "EIO: i/o error" else None;
     failed_write := fun _ data _ => Some (substring 0 16 data);
     createMessage := fun _ => throw "Method not found" |}.

(** A world whose client answers the sampling request with [reply]. *)
Definition sampling_env (reply : string) : Env :=
  {| fetch := fun _ => FetchRejected "fetch failed";
     writeFile_error := fun _ _ => None;
     failed_write := fun _ _ old => old;
     createMessage := fun _ => ok (text_reply reply) |}.

(** A world whose geocoding service answers with [data]. *)
Definition geocoding_env (data : JSON) : Env :=
  {| fetch := fun _ => Response (ok data);
     writeFile_error := fun _ _ => None;
     failed_write := fun _ _ old => old;
     createMessage := fun _ => throw "Method not found" |}.

(** A user as the model may make it, with an id of its own. *)
Definition model_user : JSON :=
  JObj [("name", JStr "Ada"); ("email", JStr "ada@example.com"); ("id", JNum 42)].

(** A parser that knows one text. *)
Definition parse_only (known : string) (value : JSON) (s : string) : JSResult JSON :=
  if s =? known then ok value else throw "Unexpected token".

End UserStore.

Module ClientTheory.

Import Protocol Client Session.

(** *** The built-ins on small inputs *)

Example parseInt_examples :
  parseInt "42" = Int 42 /\ parseInt "  -12abc" = Int (-12) /\ parseInt "0x1f" = Int 31
  /\ parseInt "abc" = NaN /\ parseInt "" = NaN /\ parseInt "7.9" = Int 7.
Proof. repeat split; reflexivity. Qed.

Example match_placeholders_examples :
  match_placeholders "users://{id}/profile" = ["{id}"]
  /\ match_placeholders "users://all" = []
  /\ match_placeholders "a{}{b{c}d}{e" = ["{b{c}"].
Proof. repeat split; reflexivity. Qed.

Example replace_first_examples :
  replace_first "users://{id}/profile" "{id}" "7" = "users://7/profile"
  /\ replace_first "{id}" "{" "" = "id}"
  /\ replace_first "x{id}y" "{id}" "[$&|$$]" = "x[{id}|$]y".
Proof. repeat split; reflexivity. Qed.

Example stringify_examples :
  stringify (JArr []) = "[]"
  /\ stringify (JArr [JNum 1; JStr "a"]) = "[" ++ nl ++ "  1," ++ nl ++ "  " ++ quote "a" ++ nl ++ "]"
  /\ stringify (JObj [("id", JNum 1)]) = "{" ++ nl ++ "  " ++ quote "id" ++ ": 1" ++ nl ++ "}".
Proof. repeat split; reflexivity. Qed.

Example spread_examples :
  obj_spread [("id", JNum 3)] (JObj [("name", JStr "n"); ("id", JNum 9)])
  = [("id", JNum 9); ("name", JStr "n")]
  /\ obj_spread [("id", JNum 3)] (JArr [JStr "x"]) = [("0", JStr "x"); ("id", JNum 3)]
  /\ obj_spread [("id", JNum 3)] JNull = [("id", JNum 3)].
Proof. repeat split; reflexivity. Qed.

Lemma string_app_empty (s : string) : s ++ "" = s.
Proof. induction s as [| c s IH]; simpl; [reflexivity | rewrite IH; reflexivity]. Qed.

(** *** Running sequenced programs *)

Lemma run_bind {A B} (env : Env) (p : Prog A) (f : A -> Prog B) :
  forall h,
    run env h (bind p f) =
    match run env h p with
    | (t1, Returned a) =>
        let '(t2, o) := run env (h ++ t1)%list (f a) in ((t1 ++ t2)%list, o)
    | (t1, Thrown e) => (t1, Thrown e)
    end.
Proof.
  induction p as [a | e | X c k IH]; intros h; simpl.
  - rewrite app_nil_r. destruct (run env h (f a)); reflexivity.
  - reflexivity.
  - rewrite IH.
    destruct (run env (h ++ [Ev c (answer env h c)])%list (k (answer env h c)))
      as [t1 [a | e]]; simpl.
    + rewrite <- app_assoc. simpl.
      destruct (run env (h ++ Ev c (answer env h c) :: t1)%list (f a)); reflexivity.
    + reflexivity.
Qed.

Lemma run_collect_cons (env : Env) (h : list Event) (m : PromptMessage)
  (rest : list PromptMessage) (texts : list string) :
  run env h (collect_texts (m :: rest) texts) =
  match run env h (handleServerMessagePrompt m) with
  | (t1, Returned t) =>
      let '(t2, o) :=
        run env (h ++ t1)%list
          (collect_texts rest (if truthy t then (texts ++ [t])%list else texts)) in
      ((t1 ++ t2)%list, o)
  | (t1, Thrown e) => (t1, Thrown e)
  end.
Proof.
  change (collect_texts (m :: rest) texts)
    with (bind (handleServerMessagePrompt m)
            (fun t => collect_texts rest (if truthy t then (texts ++ [t])%list else texts))).
  apply run_bind.
Qed.

(** The handler returns the collected texts joined by newlines. *)
Lemma run_createMessageHandler (env : Env) (h : list Event) (request : CreateMessageParams) :
  run env h (createMessageHandler request) =
  (fst (run env h (collect_texts (messages request) [])),
   map_outcome (fun texts => text_payload (join nl texts))
     (snd (run env h (collect_texts (messages request) [])))).
Proof.
  unfold createMessageHandler. rewrite run_bind.
  destruct (run env h (collect_texts (messages request) [])) as [t [texts | e]]; simpl.
  - rewrite app_nil_r. reflexivity.
  - reflexivity.
Qed.

(** One text message: the text is shown, the operator is asked, and only
    a confirmation reaches the model. *)
Lemma run_text_message (env : Env) (h : list Event) (r t : string) :
  run env h (handleServerMessagePrompt {| role := r; content := TextContent t |}) =
  if on_confirm env (h ++ [Ev (ConsoleLog t) tt])%list confirm_message true then
    let reply :=
      on_generateText env
        (h ++ [Ev (ConsoleLog t) tt; Ev (Confirm confirm_message true) true])%list
        (bridge_options t) in
    (confirmed_events t reply,
     match reply with
     | inl e => Thrown e
     | inr g => Returned (text g)
     end)
  else (denied_events t, Returned cancelled_marker).
Proof.
  unfold handleServerMessagePrompt, confirmed_events, denied_events, bridge_options,
    confirm_message; simpl.
  destruct (on_confirm env (h ++ [Ev (ConsoleLog t) tt])%list _ true); simpl.
  - rewrite <- !app_assoc; simpl.
    destruct (on_generateText env (h ++ _)%list _); reflexivity.
  - reflexivity.
Qed.

(** A message that is not text meets no call at all. *)
Lemma run_other_message (env : Env) (h : list Event) (m : PromptMessage) :
  content_type (content m) <> "text" ->
  run env h (handleServerMessagePrompt m) = ([], Returned (unsupported_marker (content m))).
Proof.
  intros Hty. unfold handleServerMessagePrompt.
  destruct (content m); simpl in *; try reflexivity.
  exfalso; apply Hty; reflexivity.
Qed.

(** The next message of the loop is a text message: what the operator
    and the model answer gives three cases (confirmed and the model
    failed, confirmed and the model answered, denied). *)
Ltac next_text_message env :=
  rewrite run_collect_cons, run_text_message;
  destruct (on_confirm env _ confirm_message true);
  [ cbv zeta; destruct (on_generateText env _ _) | ].

(** C4: a request of two text messages, both denied by the operator,
    returns the two cancelled markers joined by one newline, and the
    model is not called. *)
Theorem sampling_two_denied (env : Env) (h : list Event) (r1 r2 t1 t2 : string) (mt : Z) :
  let request :=
    {| messages := [ {| role := r1; content := TextContent t1 |};
                     {| role := r2; content := TextContent t2 |} ];
       maxTokens := mt |} in
  confirm_answers (trace env h (createMessageHandler request)) = [false; false] ->
  outcome env h (createMessageHandler request)
  = Returned (text_payload (cancelled_marker ++ nl ++ cancelled_marker))
  /\ model_calls (trace env h (createMessageHandler request)) = [].
Proof.
  intros request. unfold trace, outcome, request.
  rewrite run_createMessageHandler. cbn [messages fst snd].
  next_text_message env.
  - discriminate.
  - next_text_message env; discriminate.
  - next_text_message env; try discriminate.
    intros _. split; reflexivity.
Qed.

(** The operator who denies everything is such a session. *)
Lemma sampling_two_denied_witness :
  outcome (scripted (fun _ => false) says) []
    (createMessageHandler {| messages := [text_message "first"; text_message "second"];
                             maxTokens := 1024 |})
  = Returned (text_payload (cancelled_marker ++ nl ++ cancelled_marker))
  /\ model_calls (trace (scripted (fun _ => false) says) []
                    (createMessageHandler {| messages := [text_message "first";
                                                          text_message "second"];
                                             maxTokens := 1024 |})) = [].
Proof.
  apply (@sampling_two_denied (scripted (fun _ => false) says) [] "user" "user"
           "first" "second" 1024).
  reflexivity.
Defined.

(** The marker of an unsupported message is never dropped by the loop. *)
Lemma unsupported_marker_truthy (c : Content) : truthy (unsupported_marker c) = true.
Proof. reflexivity. Qed.

(** C5: a message that is not text, followed by a text message that the
    operator confirms and the model answers: the only events are those of
    the second message, so the first met no confirmation, and the payload
    is the unsupported-type marker followed by the generated text. *)
Theorem sampling_unsupported_then_confirmed (env : Env) (h : list Event)
  (m1 : PromptMessage) (r2 t2 : string) (mt : Z) (g : GenerateTextResult) :
  let request :=
    {| messages := [m1; {| role := r2; content := TextContent t2 |}];
       maxTokens := mt |} in
  content_type (content m1) <> "text" ->
  confirm_answers (trace env h (createMessageHandler request)) = [true] ->
  map snd (model_calls (trace env h (createMessageHandler request))) = [inr g] ->
  trace env h (createMessageHandler request) = confirmed_events t2 (inr g)
  /\ outcome env h (createMessageHandler request)
     = Returned (text_payload (unsupported_marker (content m1)
                               ++ (if truthy (text g) then nl ++ text g else ""))).
Proof.
  intros request Hty. unfold trace, outcome, request.
  rewrite run_createMessageHandler. cbn [messages fst snd].
  rewrite run_collect_cons, (run_other_message env h m1 Hty).
  rewrite unsupported_marker_truthy, app_nil_r. cbn [app].
  next_text_message env; try discriminate.
  cbn [collect_texts run fst snd app map_outcome confirmed_events model_calls
         confirm_answers flat_map map].
  intros _ Hg. injection Hg as ->.
  split; [reflexivity |].
  destruct (truthy (text g)) eqn:Ht; cbn [join String.concat].
  - reflexivity.
  - rewrite string_app_empty. reflexivity.
Qed.

Lemma sampling_unsupported_then_confirmed_witness :
  let env := scripted (fun _ => true) (fun _ => says "generated") in
  let request :=
    {| messages := [ {| role := "user"; content := ImageContent "aGk=" "image/png" |};
                     {| role := "user"; content := TextContent "describe it" |} ];
       maxTokens := 256 |} in
  trace env [] (createMessageHandler request)
  = confirmed_events "describe it" (says "generated")
  /\ outcome env [] (createMessageHandler request)
     = Returned (text_payload ("Unsupported content type: image" ++ nl ++ "generated")).
Proof.
  apply (@sampling_unsupported_then_confirmed
           (scripted (fun _ => true) (fun _ => says "generated")) []
           {| role := "user"; content := ImageContent "aGk=" "image/png" |}
           "user" "describe it" 256 {| text := "generated"; toolResults := [] |}).
  - simpl. discriminate.
  - reflexivity.
  - reflexivity.
Defined.

(** *** The bound and the prompt of the model calls of the bridge *)

Lemma model_calls_app (t1 t2 : list Event) :
  model_calls (t1 ++ t2) = (model_calls t1 ++ model_calls t2)%list.
Proof. unfold model_calls. apply flat_map_app. Qed.

Lemma bridge_call_weaken (ms : list PromptMessage) (m : PromptMessage) (mt : Z)
  (o : GenerateTextOptions) :
  bridge_call {| messages := ms; maxTokens := mt |} o ->
  bridge_call {| messages := m :: ms; maxTokens := mt |} o.
Proof.
  intros (Hb & Ht & m' & Hin & Hc). repeat split; trivial.
  exists m'. split; [right; exact Hin | exact Hc].
Qed.

Lemma collect_texts_model_calls (mt : Z) (msgs : list PromptMessage) :
  forall env h texts,
    Forall (fun c => bridge_call {| messages := msgs; maxTokens := mt |} (fst c))
      (model_calls (fst (run env h (collect_texts msgs texts)))).
Proof.
  induction msgs as [| m rest IH]; intros env h texts.
  - constructor.
  - rewrite run_collect_cons.
    assert (Hrest : forall h' texts',
               Forall (fun c => bridge_call {| messages := m :: rest; maxTokens := mt |} (fst c))
                 (model_calls (fst (run env h' (collect_texts rest texts'))))).
    { intros h' texts'. eapply Forall_impl; [| apply IH].
      intros c Hc. apply bridge_call_weaken. exact Hc. }
    destruct (string_dec (content_type (content m)) "text") as [Htext | Hother].
    2:{ rewrite (run_other_message env h m Hother), app_nil_r.
        specialize (Hrest h (if truthy (unsupported_marker (content m))
                             then (texts ++ [unsupported_marker (content m)])%list
                             else texts)).
        destruct (run env h _) as [t2 o]. exact Hrest. }
    destruct m as [r c]. destruct c as [t | d mime | d mime | u]; try discriminate Htext.
    rewrite run_text_message.
    destruct (on_confirm env (h ++ [Ev (ConsoleLog t) tt])%list confirm_message true).
    + cbv zeta. destruct (on_generateText env _ _) as [e | g] eqn:Eg.
      * cbn. constructor; [| constructor].
        repeat split. exists {| role := r; content := TextContent t |}.
        split; [left; reflexivity | reflexivity].
      * specialize (Hrest (h ++ confirmed_events t (inr g))%list
                      (if truthy (text g) then (texts ++ [text g])%list else texts)).
        destruct (run env (h ++ confirmed_events t (inr g))%list _) as [t2 o].
        cbn [fst] in *. rewrite model_calls_app. apply Forall_app. split; [| exact Hrest].
        cbn. constructor; [| constructor].
        repeat split. exists {| role := r; content := TextContent t |}.
        split; [left; reflexivity | reflexivity].
    + specialize (Hrest (h ++ denied_events t)%list
                    (if truthy cancelled_marker then (texts ++ [cancelled_marker])%list
                     else texts)).
      destruct (run env (h ++ denied_events t)%list _) as [t2 o].
      cbn [fst] in *. rewrite model_calls_app. exact Hrest.
Qed.




(** *** Failure of the model inside the bridge *)

(** A rejected model call ends the loop there: the error is the outcome
    of the handler, and the messages after it are not looked at. *)
Lemma collect_texts_model_failure (env : Env) (h : list Event) (r t : string)
  (rest : list PromptMessage) (texts : list string) (e : JSError) :
  on_confirm env (h ++ [Ev (ConsoleLog t) tt])%list confirm_message true = true ->
  on_generateText env
    (h ++ [Ev (ConsoleLog t) tt; Ev (Confirm confirm_message true) true])%list
    (bridge_options t) = inl e ->
  run env h (collect_texts ({| role := r; content := TextContent t |} :: rest) texts)
  = (confirmed_events t (inl e), Thrown e).
Proof.
  intros Hc Hg. rewrite run_collect_cons, run_text_message, Hc. cbv zeta.
  rewrite Hg. reflexivity.
Qed.

(** C3, on the code: the operator confirms both messages of a request and
    the model fails on the first; the handler throws that failure, no
    marker is contributed and the second message is never processed. *)
Theorem sampling_model_failure_aborts :
  let env :=
    scripted (fun _ => true)
      (fun t => if t =? "first" then throw "model unavailable" else says "done") in
  let request :=
    {| messages := [text_message "first"; text_message "second"]; maxTokens := 1024 |} in
  run env [] (createMessageHandler request)
  = (confirmed_events "first" (throw "model unavailable"), Thrown "model unavailable").
Proof. reflexivity. Qed.

(** *** Empty contributions *)

(** C10: a confirmed text message whose model call returns the empty text
    leaves the collected texts as they were, so the payload has neither a
    marker nor a separator for it; and a payload can have fewer
    newline-separated parts than the request has messages. *)
Theorem sampling_empty_reply_dropped :
  (forall (env : Env) (h : list Event) (r t : string) (g : GenerateTextResult)
          (rest : list PromptMessage) (texts : list string),
      on_confirm env (h ++ [Ev (ConsoleLog t) tt])%list confirm_message true = true ->
      on_generateText env
        (h ++ [Ev (ConsoleLog t) tt; Ev (Confirm confirm_message true) true])%list
        (bridge_options t) = inr g ->
      text g = "" ->
      run env h (collect_texts ({| role := r; content := TextContent t |} :: rest) texts)
      = (let '(t2, o) :=
           run env (h ++ confirmed_events t (inr g))%list (collect_texts rest texts) in
         ((confirmed_events t (inr g) ++ t2)%list, o)))
  /\ (exists (env : Env) (request : CreateMessageParams) (payload : string),
         outcome env [] (createMessageHandler request) = Returned (text_payload payload)
         /\ parts payload < length (messages request)).
Proof.
  split.
  - intros env h r t g rest texts Hc Hg Hempty.
    rewrite run_collect_cons, run_text_message, Hc. cbv zeta.
    rewrite Hg, Hempty. reflexivity.
  - exists (scripted (fun _ => true) (fun t => if t =? "first" then says "" else says "done")).
    exists {| messages := [text_message "first"; text_message "second"]; maxTokens := 1024 |}.
    exists "done". split; [reflexivity | simpl; lia].
Qed.

Lemma sampling_empty_reply_dropped_witness :
  let env := scripted (fun _ => true) (fun t => if t =? "first" then says "" else says "done") in
  run env [] (collect_texts [text_message "first"; text_message "second"] ["kept"])
  = (let '(t2, o) :=
       run env ([] ++ confirmed_events "first" (says ""))%list
         (collect_texts [text_message "second"] ["kept"]) in
     ((confirmed_events "first" (says "") ++ t2)%list, o))
  /\ snd (run env [] (collect_texts [text_message "first"; text_message "second"] ["kept"]))
     = Returned ["kept"; "done"].
Proof.
  split.
  - apply (proj1 sampling_empty_reply_dropped
             (scripted (fun _ => true) (fun t => if t =? "first" then says "" else says "done"))
             [] "user" "first" {| text := ""; toolResults := [] |}
             [text_message "second"] ["kept"]); reflexivity.
  - reflexivity.
Defined.

(** *** The answer to a query *)

Lemma query_answer_priority (r : GenerateTextResult) :
  query_answer r = answer_by_priority r.
Proof.
  unfold query_answer, answer_by_priority, or_else, opt_or_else.
  destruct (truthy (text r)); [reflexivity |].
  destruct (first_result_text (toolResults r)) as [s |]; reflexivity.
Qed.

Lemma truthy_not_empty (s : string) : truthy s = true -> s <> "".
Proof. destruct s; [discriminate | intros _; discriminate]. Qed.

Lemma answer_by_priority_not_empty (r : GenerateTextResult) : answer_by_priority r <> "".
Proof.
  unfold answer_by_priority.
  destruct (truthy (text r)) eqn:E1; [apply truthy_not_empty; exact E1 |].
  destruct (first_result_text (toolResults r)) as [s |]; [| discriminate].
  destruct (truthy s) eqn:E2; [apply truthy_not_empty; exact E2 | discriminate].
Qed.

(** C1, as amended: when the model call returns, the line displayed is
    the answer by priority: the final text if not empty; else the text of
    the first content part of the first tool result if there is one and
    it is not empty; else the fixed message. It is never empty. *)
Theorem handleQuery_answer (env : Env) (h : list Event) (ts : list Tool)
  (r : GenerateTextResult) :
  let query := on_input env h "Enter your query:" in
  on_generateText env (h ++ [Ev (Input "Enter your query:") query])%list
    (query_options query ts) = inr r ->
  run env h (handleQuery ts)
  = ([Ev (Input "Enter your query:") query;
      Ev (GenerateText (query_options query ts)) (inr r);
      Ev (ConsoleLog ("Query response: " ++ answer_by_priority r)) tt],
     Returned tt)
  /\ answer_by_priority r <> "".
Proof.
  intros query Hr. split; [| apply answer_by_priority_not_empty].
  unfold handleQuery, query_options in *; simpl.
  fold query. rewrite Hr. simpl. rewrite query_answer_priority. reflexivity.
Qed.

Lemma handleQuery_answer_witness :
  run (scripted (fun _ => true) (fun _ => ok empty_tool_reply)) [] (handleQuery [])
  = ([Ev (Input "Enter your query:") "";
      Ev (GenerateText (query_options "" [])) (inr empty_tool_reply);
      Ev (ConsoleLog "Query response: No response generated.") tt],
     Returned tt)
  /\ answer_by_priority empty_tool_reply <> "".
Proof.
  apply (@handleQuery_answer (scripted (fun _ => true) (fun _ => ok empty_tool_reply))
           [] [] empty_tool_reply).
  reflexivity.
Defined.

(** C1, as stated, fails: the model returns no final text after a tool
    call whose result text is empty; the answer displayed is the fixed
    message and not the text of the first tool result. *)
Lemma query_answer_not_first_tool_text :
  ~ (forall r : GenerateTextResult,
        text r = "" -> toolResults r <> [] ->
        Some (query_answer r) = first_result_text (toolResults r)).
Proof.
  intros H. specialize (H empty_tool_reply eq_refl).
  assert (Hne : toolResults empty_tool_reply <> []) by discriminate.
  specialize (H Hne). discriminate H.
Qed.

(** *** The start of a session *)

(** C9: whatever the environment and however long the menu is followed,
    the run of [main] is one of three. When the connection fails, [main]
    throws with the failed connection as its only event. When the
    connection succeeds, the four discovery requests are sent and joined:
    when the join fails, [main] throws right after it; when it succeeds,
    the sampling handler is registered, the log line is written, and only
    then the menu runs, on the complete snapshot that the join returned.
    None of the events before the menu is interactive. *)
Theorem main_discovery_before_actions (JSON_parse : string -> JSResult JSON)
  (env : Env) (h : list Event) (fuel : nat) :
  run env h (main JSON_parse fuel)
  = match on_connect env h with
    | inl e => ([Ev Connect (inl e)], Thrown e)
    | inr _ =>
        match on_discovery env (h ++ Ev Connect (ok tt) :: discovery_requests)%list with
        | inl e =>
            ((Ev Connect (ok tt) :: discovery_requests ++ [Ev PromiseAll (inl e)])%list,
             Thrown e)
        | inr snapshot =>
            let '(t, o) :=
              run env (h ++ startup_events snapshot)%list (menu JSON_parse fuel snapshot) in
            ((startup_events snapshot ++ t)%list, o)
        end
    end
  /\ (forall snapshot : Snapshot, existsb interactive (startup_events snapshot) = false)
  /\ (forall e : JSError,
        existsb interactive
          (Ev Connect (ok tt) :: discovery_requests ++ [Ev PromiseAll (inl e)])%list = false).
Proof.
  split; [| split; reflexivity].
  unfold main. simpl.
  destruct (on_connect env h) as [e | []]; simpl; [reflexivity |].
  unfold discovery_requests. rewrite <- !app_assoc. simpl.
  destruct (on_discovery env _) as [e | snapshot]; simpl; [reflexivity |].
  unfold startup_events, ok. rewrite <- !app_assoc. simpl.
  destruct (run env _ (menu JSON_parse fuel snapshot)) as [t o]. reflexivity.
Qed.

(** A session on a snapshot of one tool in which the operator leaves at
    the first menu: the whole run is the start-up followed by the menu. *)
Lemma main_discovery_before_actions_witness :
  let snapshot := {| tools := [coordinates_tool]; resources := [];
                     resourceTemplates := []; prompts := [] |} in
  let env := menu_script ["Exit"] "" (says "") (ok {| contents := [] |}) snapshot in
  run env [] (main sample_parser 3)
  = (let '(t, o) := run env (startup_events snapshot) (menu sample_parser 3 snapshot) in
     ((startup_events snapshot ++ t)%list, o))
  /\ map interactive (trace env [] (main sample_parser 3))
     = [false; false; false; false; false; false; false; false; true; false].
Proof.
  split; [| reflexivity].
  exact (proj1 (@main_discovery_before_actions sample_parser
                  (menu_script ["Exit"] "" (says "") (ok {| contents := [] |})
                     {| tools := [coordinates_tool]; resources := [];
                        resourceTemplates := []; prompts := [] |})
                  [] 3)).
Defined.

End ClientTheory.

Module ServerTheory.

Import Protocol Server UserStore.

Section Runtime.

Variable JSON_parse : string -> JSResult JSON.
Variable is_email : string -> bool.
Variable env : Env.

(** *** The user store *)

Lemma import_users_module (st st1 : Store) (v : JSON) :
  import_users JSON_parse st = (ok v, st1) -> users_module st1 = Some v.
Proof.
  unfold import_users.
  destruct (users_module st) as [v0 |] eqn:Em.
  - intros H. injection H as <- <-. exact Em.
  - destruct (users_file st) as [txt |]; [| discriminate].
    destruct (JSON_parse txt) as [e | v1]; [discriminate |].
    intros H. injection H as <- <-. reflexivity.
Qed.

Lemma import_users_loaded (st : Store) (v : JSON) :
  users_module st = Some v -> import_users JSON_parse st = (ok v, st).
Proof. intros H. unfold import_users. rewrite H. reflexivity. Qed.




Lemma spread_name_email (id : Z) (name email : string) :
  JObj (obj_spread [("id", JNum id)] (JObj [("name", JStr name); ("email", JStr email)]))
  = user_record id name email.
Proof. reflexivity. Qed.

(** What [createUser] does on a store of [items]: the record is pushed on
    the array of the module before the file is written, so it stays there
    when the write fails. *)
Lemma createUser_record (st st1 : Store) (items : list JSON) (name email : string) :
  import_users JSON_parse st = (ok (JArr items), st1) ->
  let id := (Z.of_nat (length items) + 1)%Z in
  let users := JArr (items ++ [user_record id name email])%list in
  createUser JSON_parse env (JObj [("name", JStr name); ("email", JStr email)]) st
  = match writeFile_error env users_path (stringify users) with
    | None => (ok id, {| users_module := Some users;
                         users_file := Some (stringify users);
                         stdout := stdout st1 |})
    | Some e => (throw e, {| users_module := Some users;
                             users_file :=
                               failed_write env users_path (stringify users) (users_file st1);
                             stdout := stdout st1 |})
    end.
Proof.
  intros Himp id users. unfold createUser, bind. rewrite Himp.
  unfold ok at 1. cbv beta iota.
  rewrite spread_name_email. fold id. fold users.
  unfold push_user, writeFile, ret. cbn [users_module users_file stdout].
  destruct (writeFile_error env users_path (stringify users)); reflexivity.
Qed.

(** C8: on a store of N users, the create-user tool puts the record with
    id N+1 and the given name and email at the end of the users, and a
    later read of [users://all] lists the old users followed by that
    record; when the file is written, the tool reports that id. *)
Theorem create_user_then_listing (st st1 : Store) (items : list JSON)
  (name email href : string) :
  import_users JSON_parse st = (ok (JArr items), st1) ->
  let id := (Z.of_nat (length items) + 1)%Z in
  let users := JArr (items ++ [user_record id name email])%list in
  let after := snd (create_user JSON_parse env name email st) in
  fst (users_resource JSON_parse href after) = ok (json_contents href users)
  /\ (writeFile_error env users_path (stringify users) = None ->
      fst (create_user JSON_parse env name email st)
      = ok (text_result ("User " ++ Z_to_string id ++ " created successfully: "
                         ++ name ++ " (" ++ email ++ ")"))
      /\ users_file after = Some (stringify users)).
Proof.
  intros Himp id users after.
  assert (Hmod : users_module after = Some users
                 /\ (writeFile_error env users_path (stringify users) = None ->
                     fst (create_user JSON_parse env name email st)
                     = ok (text_result ("User " ++ Z_to_string id ++ " created successfully: "
                                        ++ name ++ " (" ++ email ++ ")"))
                     /\ users_file after = Some (stringify users))).
  { unfold after, create_user, try_catch, bind.
    rewrite (@createUser_record _ _ _ name email Himp). fold id. fold users.
    destruct (writeFile_error env users_path (stringify users)) as [e |].
    - split; [reflexivity | discriminate].
    - split; [reflexivity |]. intros _. split; reflexivity. }
  destruct Hmod as [Hmod Hreport]. split; [| exact Hreport].
  unfold users_resource, bind. rewrite (import_users_loaded _ Hmod). reflexivity.
Qed.

(** *** Tool results *)

Lemma try_catch_texty (body : M CallToolResult) (handler : JSError -> M CallToolResult) :
  texty_or_throws body -> (forall e, texty (handler e)) -> texty (try_catch body handler).
Proof.
  intros Hbody Hhandler st. unfold try_catch.
  destruct (Hbody st) as [(t & st' & ->) | (e & st' & ->)].
  - exists t, st'. reflexivity.
  - apply Hhandler.
Qed.

Lemma ret_texty (t : string) : texty (ret (text_result t)).
Proof. intros st. exists t, st. reflexivity. Qed.

Lemma bind_texty_or_throws {A} (m : M A) (f : A -> M CallToolResult) :
  (forall a, texty_or_throws (f a)) -> texty_or_throws (bind m f).
Proof.
  intros Hf st. unfold bind. destruct (m st) as [[e | a] st'].
  - right. exists e, st'. reflexivity.
  - apply Hf.
Qed.

Lemma texty_or_throws_of_texty (m : M CallToolResult) : texty m -> texty_or_throws m.
Proof. intros H st. left. apply H. Qed.

Create HintDb tools.

#[local] Hint Resolve ret_texty texty_or_throws_of_texty : tools.

(** The handlers that wrap their whole body in try and catch never throw. *)
Lemma get_coordinates_texty (city : string) : texty (get_coordinates env city).
Proof.
  apply try_catch_texty; [| auto with tools].
  unfold get_coordinates_body.
  repeat (apply bind_texty_or_throws; intros ?).
  destruct (strict_eq_num _ 0); [auto with tools |].
  repeat (apply bind_texty_or_throws; intros ?). auto with tools.
Qed.

Lemma create_user_texty (name email : string) :
  texty (create_user JSON_parse env name email).
Proof.
  apply try_catch_texty; [| auto with tools].
  apply bind_texty_or_throws; intros id. auto with tools.
Qed.

(** The handler of create-random-user throws when the sampling request
    fails: that request is sent before its try. *)
Lemma create_random_user_texty_or_throws :
  texty_or_throws (create_random_user JSON_parse env).
Proof.
  unfold create_random_user.
  apply bind_texty_or_throws; intros res.
  apply bind_texty_or_throws; intros _.
  destruct (result_content res); auto with tools.
  apply texty_or_throws_of_texty. apply try_catch_texty; [| auto with tools].
  repeat (apply bind_texty_or_throws; intros ?). auto with tools.
Qed.

Lemma create_random_user_throws (st : Store) (e : JSError) :
  createMessage env random_user_request = throw e ->
  create_random_user JSON_parse env st = (throw e, st).
Proof.
  intros H. unfold create_random_user, bind, lift. rewrite H. reflexivity.
Qed.

Lemma tool_handler_texty_or_throws (name : string) (args : list (string * JSON)) :
  texty_or_throws (tool_handler JSON_parse env name args).
Proof.
  unfold tool_handler.
  destruct (name =? "get-coordinates").
  - apply texty_or_throws_of_texty, get_coordinates_texty.
  - destruct (name =? "create-user").
    + apply texty_or_throws_of_texty, create_user_texty.
    + apply create_random_user_texty_or_throws.
Qed.

Lemma tool_handler_get_coordinates (args : list (string * JSON)) :
  tool_handler JSON_parse env "get-coordinates" args
  = get_coordinates env (string_of (obj_get args "city")).
Proof. reflexivity. Qed.

Lemma tool_handler_create_user (args : list (string * JSON)) :
  tool_handler JSON_parse env "create-user" args
  = create_user JSON_parse env (string_of (obj_get args "name"))
      (string_of (obj_get args "email")).
Proof. reflexivity. Qed.

(** C6: on a registered tool name with an argument map its schema
    accepts, [callTool] returns one text part and never an error; when
    the geocoding fetch is rejected, or the write of the user file fails,
    the text names the failure. *)
Theorem callTool_text_result (st : Store) (name : string) (args : list (string * JSON)) :
  valid_call is_email name args = true ->
  (exists t st', callTool JSON_parse is_email env name args st = (ok (text_result t), st'))
  /\ (forall e,
         name = "get-coordinates" ->
         fetch env (geocoding_url (string_of (obj_get args "city"))) = FetchRejected e ->
         callTool JSON_parse is_email env name args st
         = (ok (text_result ("Error fetching coordinates data for "
                             ++ string_of (obj_get args "city") ++ ": " ++ e)), st))
  /\ (forall e items st1,
         name = "create-user" ->
         import_users JSON_parse st = (ok (JArr items), st1) ->
         (forall path data, writeFile_error env path data = Some e) ->
         fst (callTool JSON_parse is_email env name args st)
         = ok (text_result ("Error creating user: " ++ e))).
Proof.
  intros Hvalid. unfold callTool. rewrite Hvalid. repeat split.
  - apply try_catch_texty; [apply tool_handler_texty_or_throws | auto with tools].
  - intros e -> Hfetch.
    rewrite tool_handler_get_coordinates.
    unfold get_coordinates, get_coordinates_body, try_catch, bind, lift.
    rewrite Hfetch. reflexivity.
  - intros e items st1 -> Himp Hwrite.
    rewrite tool_handler_create_user.
    unfold create_user, try_catch, bind.
    rewrite (@createUser_record _ _ _ _ _ Himp), Hwrite. reflexivity.
Qed.

End Runtime.


Lemma two_users_records :
  Forall is_record
    [user_record 1 "Grace" "grace@example.com"; user_record 2 "Alan" "alan@example.com"].
Proof. repeat constructor; eexists; reflexivity. Defined.


Lemma create_user_then_listing_witness :
  let users :=
    JArr [user_record 1 "Grace" "grace@example.com"; user_record 2 "Alan" "alan@example.com";
          user_record 3 "Ada" "ada@example.com"] in
  let after := snd (create_user sample_parse working_env "Ada" "ada@example.com" two_users) in
  fst (users_resource sample_parse "users://all" after)
  = ok (json_contents "users://all" users)
  /\ (writeFile_error working_env users_path (stringify users) = None ->
      fst (create_user sample_parse working_env "Ada" "ada@example.com" two_users)
      = ok (text_result "User 3 created successfully: Ada (ada@example.com)")
      /\ users_file after = Some (stringify users)).
Proof.
  apply (@create_user_then_listing sample_parse working_env two_users two_users
           [user_record 1 "Grace" "grace@example.com"; user_record 2 "Alan" "alan@example.com"]
           "Ada" "ada@example.com" "users://all").
  reflexivity.
Defined.

Lemma callTool_text_result_witness :
  (exists t st',
      callTool sample_parse sample_is_email failing_env "get-coordinates"
        [("city", JStr "Oslo")] two_users
      = (ok (text_result t), st'))
  /\ callTool sample_parse sample_is_email failing_env "get-coordinates"
       [("city", JStr "Oslo")] two_users
     = (ok (text_result "Error fetching coordinates data for Oslo: fetch failed"), two_users).
Proof.
  destruct (@callTool_text_result sample_parse sample_is_email failing_env two_users
              "get-coordinates" [("city", JStr "Oslo")] eq_refl) as (Htext & Hfetch & _).
  split; [exact Htext | exact (Hfetch "fetch failed" eq_refl eq_refl)].
Defined.

(** *** The handlers on sample worlds *)

Example create_random_user_reaches_the_boundary :
  create_random_user sample_parse failing_env two_users = (throw "Method not found", two_users)
  /\ callTool sample_parse sample_is_email failing_env "create-random-user" [] two_users
     = (ok (text_result "Method not found"), two_users).
Proof. split; reflexivity. Qed.

Example create_user_on_a_full_disk :
  fst (create_user sample_parse failing_env "Ada" "ada@example.com" two_users)
  = ok (text_result "Error creating user: ENOSPC: no space left on device").
Proof. reflexivity. Qed.

Example get_coordinates_found :
  fst (get_coordinates working_env "Berlin" two_users)
  = ok (text_result "Data for Berlin is 52 and 13!").
Proof. reflexivity. Qed.

Example user_details_found :
  fst (user_details sample_parse "users://2/profile" "2" two_users)
  = ok (json_contents "users://2/profile" (user_record 2 "Alan" "alan@example.com")).
Proof. reflexivity. Qed.

Example user_details_lenient_id :
  fst (user_details sample_parse "users://%202abc/profile" " 2abc" two_users)
  = ok (json_contents "users://%202abc/profile" (user_record 2 "Alan" "alan@example.com")).
Proof. reflexivity. Qed.

Example callTool_unknown_name :
  fst (callTool sample_parse sample_is_email working_env "drop-users" [] two_users)
  = throw "Invalid params".
Proof. reflexivity. Qed.

End ServerTheory.

(** ** Facts about the built-ins *)

Module JSFacts.

Import Session.

(** *** Property lists *)

Section Objects.

Variable V : Type.

Implicit Types (fields : list (string * V)) (k : string) (v : V).

Lemma obj_get_replace_same fields k v :
  obj_get fields k <> None -> obj_get (obj_replace fields k v) k = Some v.
Proof.
  induction fields as [| [k' v'] rest IH]; simpl; intros H; [congruence |].
  destruct (k' =? k) eqn:E; simpl.
  - rewrite String.eqb_refl. reflexivity.
  - rewrite E. apply IH. exact H.
Qed.

Lemma obj_get_replace_other fields k v k0 :
  k0 <> k -> obj_get (obj_replace fields k v) k0 = obj_get fields k0.
Proof.
  intros Hne. induction fields as [| [k' v'] rest IH]; simpl; [reflexivity |].
  destruct (k' =? k) eqn:E; simpl.
  - apply String.eqb_eq in E. subst k'.
    apply String.eqb_neq in Hne. rewrite String.eqb_sym in Hne. rewrite Hne. reflexivity.
  - rewrite IH. reflexivity.
Qed.

Lemma obj_get_insert_same fields k v :
  obj_get fields k = None -> obj_get (obj_insert_new fields k v) k = Some v.
Proof.
  induction fields as [| [k' v'] rest IH]; simpl; intros H.
  - rewrite String.eqb_refl. reflexivity.
  - destruct (k' =? k) eqn:E; [discriminate H |].
    destruct (array_index k) as [n |]; [destruct (array_index k') as [n' |] |];
      try destruct (n <? n')%Z; simpl;
      rewrite ?E, ?String.eqb_refl; auto.
Qed.

Lemma obj_get_insert_other fields k v k0 :
  k0 <> k -> obj_get (obj_insert_new fields k v) k0 = obj_get fields k0.
Proof.
  intros Hne. apply String.eqb_neq in Hne. rewrite String.eqb_sym in Hne.
  induction fields as [| [k' v'] rest IH]; simpl.
  - rewrite Hne. reflexivity.
  - destruct (array_index k) as [n |]; [destruct (array_index k') as [n' |] |];
      try destruct (n <? n')%Z; simpl; rewrite ?Hne, ?IH; reflexivity.
Qed.

(** Writing a property and reading it back. *)
Lemma obj_get_set_same fields k v : obj_get (obj_set fields k v) k = Some v.
Proof.
  unfold obj_set. destruct (obj_get fields k) eqn:E.
  - apply obj_get_replace_same. congruence.
  - apply obj_get_insert_same. exact E.
Qed.

(** Writing a property leaves the others as they were. *)
Lemma obj_get_set_other fields k v k0 :
  k0 <> k -> obj_get (obj_set fields k v) k0 = obj_get fields k0.
Proof.
  intros Hne. unfold obj_set. destruct (obj_get fields k).
  - apply obj_get_replace_other. exact Hne.
  - apply obj_get_insert_other. exact Hne.
Qed.

Lemma obj_get_in fields k : obj_get fields k <> None <-> In k (map fst fields).
Proof.
  induction fields as [| [k' v'] rest IH]; simpl.
  - split; [congruence | intros []].
  - destruct (k' =? k) eqn:E.
    + apply String.eqb_eq in E. split; [intros _; left; exact E | congruence].
    + apply String.eqb_neq in E. rewrite IH. split; [intros H; right; exact H |].
      intros [H | H]; [contradiction | exact H].
Qed.

Lemma obj_replace_keys fields k v :
  map fst (obj_replace fields k v) = map fst fields.
Proof.
  induction fields as [| [k' v'] rest IH]; simpl; [reflexivity |].
  destruct (k' =? k) eqn:E; simpl.
  - apply String.eqb_eq in E. subst. reflexivity.
  - rewrite IH. reflexivity.
Qed.

Lemma obj_insert_new_keys fields k v :
  exists l1 l2, map fst fields = (l1 ++ l2)%list
                /\ map fst (obj_insert_new fields k v) = (l1 ++ k :: l2)%list.
Proof.
  induction fields as [| [k' v'] rest (l1 & l2 & H1 & H2)]; simpl.
  - exists [], []. split; reflexivity.
  - assert (Hfront : exists l1 l2, k' :: map fst rest = (l1 ++ l2)%list
                                   /\ k :: k' :: map fst rest = (l1 ++ k :: l2)%list)
      by (exists [], (k' :: map fst rest); split; reflexivity).
    assert (Hlater : exists l1' l2', k' :: map fst rest = (l1' ++ l2')%list
                                     /\ k' :: map fst (obj_insert_new rest k v)
                                        = (l1' ++ k :: l2')%list)
      by (exists (k' :: l1), l2; simpl; rewrite H1, H2; split; reflexivity).
    destruct (array_index k) as [n |]; [destruct (array_index k') as [n' |] |];
      try destruct (n <? n')%Z; simpl; assumption.
Qed.

(** Writing a property keeps the keys of an object distinct. *)
Lemma obj_set_NoDup fields k v :
  NoDup (map fst fields) -> NoDup (map fst (obj_set fields k v)).
Proof.
  intros Hnd. unfold obj_set. destruct (obj_get fields k) eqn:E.
  - rewrite obj_replace_keys. exact Hnd.
  - destruct (obj_insert_new_keys fields k v) as (l1 & l2 & H1 & H2).
    rewrite H2. apply (NoDup_Add (Add_app k l1 l2)). rewrite <- H1.
    split; [exact Hnd | rewrite <- obj_get_in; congruence].
Qed.

End Objects.

(** *** Strings *)

Lemma length_app (a b : string) :
  String.length (a ++ b) = String.length a + String.length b.
Proof. induction a as [| c a IH]; simpl; [reflexivity | rewrite IH; reflexivity]. Qed.

Lemma string_app_assoc (a b c : string) : (a ++ b) ++ c = a ++ b ++ c.
Proof. induction a as [| x a IH]; simpl; [reflexivity | rewrite IH; reflexivity]. Qed.

Lemma string_app_nil (s : string) : s ++ "" = s.
Proof. induction s as [| c s IH]; simpl; [reflexivity | rewrite IH; reflexivity]. Qed.

Lemma prefix_app (s t : string) : prefix s (s ++ t) = true.
Proof.
  induction s as [| c s IH]; simpl; [destruct t; reflexivity |].
  destruct (ascii_dec c c) as [_ | Hne]; [exact IH | contradiction].
Qed.

Lemma substring_all (s : string) (m : nat) :
  String.length s <= m -> substring 0 m s = s.
Proof.
  revert m. induction s as [| c s IH]; intros m Hm.
  - destruct m; reflexivity.
  - destruct m as [| m]; simpl in *; [lia |]. rewrite IH by lia. reflexivity.
Qed.

Lemma substring_prefix (a b : string) : substring 0 (String.length a) (a ++ b) = a.
Proof.
  induction a as [| c a IH]; simpl.
  - destruct b; reflexivity.
  - rewrite IH. reflexivity.
Qed.

Lemma substring_skip (a b : string) (n m : nat) :
  substring (String.length a + n) m (a ++ b) = substring n m b.
Proof. induction a as [| c a IH]; simpl; [reflexivity | exact IH]. Qed.

Lemma substring_drop (a b : string) (m : nat) :
  substring (String.length a) m (a ++ b) = substring 0 m b.
Proof. rewrite <- (Nat.add_0_r (String.length a)). apply substring_skip. Qed.

Lemma has_char_head (c d : ascii) (s : string) :
  has_char c (String d s) = false -> Ascii.eqb d c = false /\ has_char c s = false.
Proof. simpl. apply orb_false_iff. Qed.

(** The first occurrence of a pattern whose first character does not
    occur before it. *)
Lemma index_first (c : ascii) (body pre post : string) :
  has_char c pre = false ->
  index 0 (String c body) (pre ++ String c body ++ post) = Some (String.length pre).
Proof.
  intros Hpre. induction pre as [| d pre IH].
  - change ("" ++ String c body ++ post) with (String c (body ++ post)).
    cbn [index]. change (String c (body ++ post)) with (String c body ++ post).
    rewrite prefix_app. reflexivity.
  - apply has_char_head in Hpre. destruct Hpre as [Hd Hpre].
    change (String d pre ++ String c body ++ post)
      with (String d (pre ++ String c body ++ post)).
    cbn [index]. simpl prefix.
    destruct (ascii_dec c d) as [-> | _].
    + rewrite Ascii.eqb_refl in Hd. discriminate.
    + rewrite (IH Hpre). reflexivity.
Qed.

Lemma expand_replacement_plain (rep matched before after : string) :
  has_char "$" rep = false -> expand_replacement rep matched before after = rep.
Proof.
  induction rep as [| c rep IH]; intros H; [reflexivity |].
  apply has_char_head in H. destruct H as [Hc Hrep].
  cbn [expand_replacement]. rewrite Hc, (IH Hrep). reflexivity.
Qed.

(** [replace] of the first occurrence, by a text free of dollar signs. *)
Lemma replace_first_at (c : ascii) (body pre post rep : string) :
  has_char c pre = false ->
  has_char "$" rep = false ->
  replace_first (pre ++ String c body ++ post) (String c body) rep = pre ++ rep ++ post.
Proof.
  intros Hpre Hrep. unfold replace_first.
  rewrite (@index_first c body pre post Hpre), substring_prefix.
  rewrite (@expand_replacement_plain rep _ _ _ Hrep).
  rewrite substring_skip, substring_drop, substring_all; [reflexivity |].
  rewrite !length_app. lia.
Qed.

(** *** Placeholders *)

Lemma scan_placeholders_skip (pre s : string) (fuel : nat) :
  has_char "{" pre = false ->
  scan_placeholders (String.length pre + fuel) (pre ++ s) = scan_placeholders fuel s.
Proof.
  intros Hpre. induction pre as [| c pre IH]; [reflexivity |].
  apply has_char_head in Hpre. destruct Hpre as [Hc Hpre].
  simpl. rewrite Hc. apply IH. exact Hpre.
Qed.

Lemma scan_placeholders_none (s : string) :
  has_char "{" s = false -> forall fuel, scan_placeholders fuel s = [].
Proof.
  induction s as [| c s IH]; intros H fuel; destruct fuel; try reflexivity.
  apply has_char_head in H. destruct H as [Hc Hs].
  simpl. rewrite Hc. apply IH. exact Hs.
Qed.

Lemma until_close_first (name post : string) :
  has_char "}" name = false ->
  until_close (name ++ String "}" post) = Some (name, post).
Proof.
  intros H. induction name as [| c name IH]; [reflexivity |].
  apply has_char_head in H. destruct H as [Hc Hname].
  simpl. rewrite Hc, (IH Hname). reflexivity.
Qed.

(** A template with one placeholder has that placeholder as its only
    match. *)
Lemma match_placeholders_single (pre name post : string) :
  has_char "{" pre = false ->
  has_char "}" name = false ->
  name <> "" ->
  has_char "{" post = false ->
  match_placeholders (pre ++ "{" ++ name ++ "}" ++ post) = ["{" ++ name ++ "}"].
Proof.
  intros Hpre Hname Hne Hpost. unfold match_placeholders.
  rewrite length_app, (@scan_placeholders_skip pre _ _ Hpre).
  change ("{" ++ name ++ "}" ++ post) with (String "{" (name ++ String "}" post)).
  cbn [String.length scan_placeholders]. cbn [Ascii.eqb Bool.eqb].
  rewrite (@until_close_first name post Hname).
  destruct name as [| b body]; [contradiction |].
  rewrite (@scan_placeholders_none post Hpost). reflexivity.
Qed.

Lemma match_placeholders_static (uri : string) :
  has_char "{" uri = false -> match_placeholders uri = [].
Proof. intros H. apply scan_placeholders_none. exact H. Qed.

(** The name shown for a placeholder is the text between its braces. *)
Lemma placeholder_name (name : string) :
  has_char "}" name = false ->
  replace_first (replace_first ("{" ++ name ++ "}") "{" "") "}" "" = name.
Proof.
  intros Hname.
  change ("{" ++ name ++ "}") with ("" ++ String "{" "" ++ (name ++ "}")).
  rewrite (@replace_first_at "{" "" "" (name ++ "}") "" eq_refl eq_refl).
  change ("" ++ "" ++ name ++ "}") with (name ++ String "}" "" ++ "").
  rewrite (@replace_first_at "}" "" name "" "" Hname eq_refl).
  apply string_app_nil.
Qed.

End JSFacts.

(** ** Further properties of the client *)

Module ClientCoverage.

Import Protocol Client Session ClientTheory.

(** *** Properties that follow the structure of the program *)

Section Compositional.

Variable JSON_parse : string -> JSResult JSON.
Variable env : Env.

(** A property of runs that holds of the empty run, of each call that
    is not a model call without tools, of the shared message path, and
    of a sequence when it holds of its parts. *)
Variable P : forall A : Type, list Event -> Outcome A -> Prop.

Local Abbreviation holds p :=
  (forall h : list Event, P (fst (run env h p)) (snd (run env h p))).

Hypothesis P_ret : forall (A : Type) (a : A), P [] (Returned a).
Hypothesis P_throw : forall (A : Type) (e : JSError), P [] (@Thrown A e).
Hypothesis P_perform : forall (X : Type) (c : Call X),
    (forall x, toolless_model_call (Ev c x) = false) ->
    (forall x, rejection (Ev c x) = None) ->
    holds (perform c).
Hypothesis P_await : forall (X : Type) (c : Call (JSResult X)),
    (forall r, toolless_model_call (Ev c r) = false) ->
    (forall r, rejection (Ev c r) = match r with inl e => Some e | inr _ => None end) ->
    holds (await c).
Hypothesis P_message : forall m : PromptMessage, holds (handleServerMessagePrompt m).
Hypothesis P_bind : forall (A B : Type) (p : Prog A) (f : A -> Prog B),
    holds p -> (forall a, holds (f a)) -> holds (bind p f).

Lemma holds_ret (A : Type) (a : A) : holds (Ret a).
Proof. intros h. apply P_ret. Qed.

Lemma holds_throw (A : Type) (e : JSError) : holds (@Throw A e).
Proof. intros h. apply P_throw. Qed.

Ltac structure :=
  repeat first
    [ apply holds_ret
    | apply holds_throw
    | apply P_message
    | apply P_perform; intros ?; reflexivity
    | apply P_await; intros ?; reflexivity
    | apply P_bind; [| intros ?] ].

Lemma holds_collect_texts (msgs : list PromptMessage) :
  forall texts, holds (collect_texts msgs texts).
Proof.
  induction msgs as [| m rest IH]; intros texts; cbn [collect_texts]; structure.
  apply IH.
Qed.

Lemma holds_createMessageHandler (request : CreateMessageParams) :
  holds (createMessageHandler request).
Proof. unfold createMessageHandler. structure. apply holds_collect_texts. Qed.

Lemma holds_handleQuery (ts : list Tool) : holds (handleQuery ts).
Proof. unfold handleQuery. structure. Qed.

Lemma holds_tool_arguments (props : list (string * SchemaProperty)) :
  forall args, holds (tool_arguments props args).
Proof.
  induction props as [| [key value] rest IH]; intros args; cbn [tool_arguments]; structure.
  apply IH.
Qed.

Lemma holds_handleTool (tool : Tool) : holds (handleTool tool).
Proof.
  unfold handleTool. structure; [apply holds_tool_arguments |].
  destruct (tool_content _); structure.
Qed.

Lemma holds_substitute_placeholders (ms : list string) :
  forall uri, holds (substitute_placeholders ms uri).
Proof.
  induction ms as [| m rest IH]; intros uri; cbn [substitute_placeholders]; structure.
  apply IH.
Qed.

Lemma holds_handleResource (uri : string) : holds (handleResource JSON_parse uri).
Proof.
  unfold handleResource. structure; [apply holds_substitute_placeholders |].
  destruct (contents _) as [| c rest]; structure.
  destruct (JSON_parse _); structure.
Qed.

Lemma holds_prompt_arguments_loop (names : list string) :
  forall args, holds (prompt_arguments_loop names args).
Proof.
  induction names as [| n rest IH]; intros args; cbn [prompt_arguments_loop]; structure.
  apply IH.
Qed.

Lemma holds_show_prompt_messages (msgs : list PromptMessage) :
  holds (show_prompt_messages msgs).
Proof.
  induction msgs as [| m rest IH]; cbn [show_prompt_messages]; structure.
  apply IH.
Qed.

Lemma holds_handlePrompt (prompt : Prompt) : holds (handlePrompt prompt).
Proof.
  unfold handlePrompt. structure;
    [apply holds_prompt_arguments_loop | apply holds_show_prompt_messages].
Qed.

#[local] Opaque handleQuery handleTool handleResource handlePrompt.

Lemma holds_menu (fuel : nat) (s : Snapshot) : holds (menu JSON_parse fuel s).
Proof.
  induction fuel as [| fuel IH]; cbn [menu]; structure.
  destruct (_ =? "Query"); [structure; first [apply IH | apply holds_handleQuery] |].
  destruct (_ =? "Tools").
  { structure. destruct (find _ (tools s)); structure;
      first [apply IH | apply holds_handleTool]. }
  destruct (_ =? "Resources").
  { structure. destruct (find_resource s _) as [[| c r] |]; structure;
      first [apply IH | apply holds_handleResource]. }
  destruct (_ =? "Prompts").
  { structure. destruct (find _ (prompts s)); structure;
      first [apply IH | apply holds_handlePrompt]. }
  destruct (_ =? "Exit"); structure. apply IH.
Qed.

#[local] Transparent handleQuery handleTool handleResource handlePrompt.

Lemma holds_main (fuel : nat) : holds (main JSON_parse fuel).
Proof. unfold main. structure. apply holds_menu. Qed.

End Compositional.

(** *** Every model call is gated *)

Lemma Gated_app (t1 t2 : list Event) : Gated t1 -> Gated t2 -> Gated (t1 ++ t2).
Proof.
  intros H1 H2. induction H1 as [| t r rest _ IH | e rest He _ IH].
  - exact H2.
  - rewrite <- app_assoc. apply Gated_confirmed. exact IH.
  - simpl. apply Gated_other; [exact He | exact IH].
Qed.

Lemma Gated_bind (env : Env) (A B : Type) (p : Prog A) (f : A -> Prog B) :
  (forall h, Gated (fst (run env h p))) ->
  (forall a h, Gated (fst (run env h (f a)))) ->
  forall h, Gated (fst (run env h (bind p f))).
Proof.
  intros Hp Hf h. rewrite run_bind. specialize (Hp h).
  destruct (run env h p) as [t1 [a | e]]; [| exact Hp].
  specialize (Hf a (h ++ t1)%list).
  destruct (run env (h ++ t1)%list (f a)) as [t2 o].
  apply Gated_app; assumption.
Qed.

Lemma Gated_message (env : Env) (m : PromptMessage) :
  forall h, Gated (fst (run env h (handleServerMessagePrompt m))).
Proof.
  intros h. destruct (string_dec (content_type (content m)) "text") as [Htext | Hother].
  2:{ rewrite (run_other_message env h m Hother). constructor. }
  destruct m as [r c]. destruct c as [t | d mime | d mime | u]; try discriminate Htext.
  rewrite run_text_message.
  destruct (on_confirm env _ confirm_message true); cbv zeta; cbn [fst].
  - rewrite <- (app_nil_r (confirmed_events t _)). apply Gated_confirmed. constructor.
  - repeat (apply Gated_other; [reflexivity |]). constructor.
Qed.

Lemma Gated_single (env : Env) (h : list Event) (A X : Type) (c : Call X) (k : X -> Prog A) :
  (forall x, toolless_model_call (Ev c x) = false) ->
  (forall x, fst (run env (h ++ [Ev c x])%list (k x)) = []) ->
  Gated (fst (run env h (Vis c k))).
Proof.
  intros Hc Hk. cbn [run]. specialize (Hk (answer env h c)).
  destruct (run env _ (k (answer env h c))) as [t o]. cbn [fst] in *. subst t.
  apply Gated_other; [apply Hc | constructor].
Qed.

(** X1: in every run of the sampling handler, each call to the model
    comes right after its prompt was shown and the operator confirmed
    it: every call to the model that the handler makes carries no tools,
    and every call without tools is so gated. *)
Theorem sampling_calls_gated (env : Env) (h : list Event) (request : CreateMessageParams) :
  Gated (trace env h (createMessageHandler request))
  /\ Forall (fun c => gen_tools (fst c) = None)
       (model_calls (trace env h (createMessageHandler request))).
Proof.
  unfold trace. split.
  - apply (holds_createMessageHandler env (fun _ t _ => Gated t)); intros.
    + constructor.
    + apply Gated_message.
    + apply Gated_bind; assumption.
  - rewrite run_createMessageHandler. cbn [fst].
    eapply Forall_impl;
      [| exact (@collect_texts_model_calls (maxTokens request) (messages request) env h [])].
    intros c [_ [Hnone _]]. exact Hnone.
Qed.

(** X2: in every session, however long the menu is followed, each call
    to the model that carries no tools comes right after its prompt was
    shown and the operator confirmed it; the calls that carry the tool
    set are those of the Query branch. *)
Theorem session_calls_gated (JSON_parse : string -> JSResult JSON) (env : Env)
  (h : list Event) (fuel : nat) :
  Gated (trace env h (main JSON_parse fuel)).
Proof.
  unfold trace.
  apply (holds_main JSON_parse env (fun _ t _ => Gated t)); intros.
  - constructor.
  - constructor.
  - apply Gated_single; [assumption | reflexivity].
  - apply Gated_single; [assumption | intros [e | x]; reflexivity].
  - apply Gated_message.
  - apply Gated_bind; assumption.
Qed.

(** *** No error boundary *)

Lemma single_event_split (t1 t2 : list Event) (ev e0 : Event) :
  (t1 ++ ev :: t2)%list = [e0] -> t1 = [] /\ ev = e0 /\ t2 = [].
Proof.
  destruct t1 as [| x t1]; simpl; intros H.
  - injection H as -> ->. repeat split.
  - injection H as _ H. destruct t1; discriminate H.
Qed.

Lemma no_rejection_split (t1 t2 l1 l2 : list Event) (ev : Event) (e : JSError) :
  (forall x, In x t1 -> rejection x = None) ->
  (t1 ++ t2)%list = (l1 ++ ev :: l2)%list ->
  rejection ev = Some e ->
  exists l1', t2 = (l1' ++ ev :: l2)%list.
Proof.
  revert l1. induction t1 as [| x t1 IH]; intros l1 Hnone Heq Hrej.
  - exists l1. exact Heq.
  - destruct l1 as [| y l1]; simpl in Heq; injection Heq as Hx Heq.
    + subst x. rewrite (Hnone ev (or_introl eq_refl)) in Hrej. discriminate.
    + apply (IH l1); [| exact Heq | exact Hrej].
      intros z Hz. apply Hnone. right. exact Hz.
Qed.

Lemma fail_fast_returned (A : Type) (t : list Event) (a : A) :
  fail_fast t (Returned a) -> forall x, In x t -> rejection x = None.
Proof.
  intros H x Hin. destruct (rejection x) as [e |] eqn:E; [| reflexivity].
  apply in_split in Hin. destruct Hin as (l1 & l2 & ->).
  destruct (H l1 x l2 e eq_refl E) as [_ Habs]. discriminate Habs.
Qed.

Lemma fail_fast_bind (env : Env) (A B : Type) (p : Prog A) (f : A -> Prog B) :
  (forall h, fail_fast (fst (run env h p)) (snd (run env h p))) ->
  (forall a h, fail_fast (fst (run env h (f a))) (snd (run env h (f a)))) ->
  forall h, fail_fast (fst (run env h (bind p f))) (snd (run env h (bind p f))).
Proof.
  intros Hp Hf h. rewrite run_bind. specialize (Hp h).
  destruct (run env h p) as [t1 [a | e0]]; cbn [fst snd] in *.
  - specialize (Hf a (h ++ t1)%list).
    destruct (run env (h ++ t1)%list (f a)) as [t2 o]. cbn [fst snd] in *.
    intros l1 ev l2 e Heq Hrej.
    destruct (@no_rejection_split t1 t2 l1 l2 ev e (fail_fast_returned Hp) Heq Hrej)
      as [l1' Ht2].
    exact (Hf l1' ev l2 e Ht2 Hrej).
  - intros l1 ev l2 e Heq Hrej. destruct (Hp l1 ev l2 e Heq Hrej) as [H1 H2].
    split; [exact H1 |]. injection H2 as ->. reflexivity.
Qed.

Lemma fail_fast_perform (env : Env) (X : Type) (c : Call X) :
  (forall x, rejection (Ev c x) = None) ->
  forall h, fail_fast (fst (run env h (perform c))) (snd (run env h (perform c))).
Proof.
  intros Hc h l1 ev l2 e Heq Hrej. cbn in Heq. symmetry in Heq.
  apply single_event_split in Heq. destruct Heq as (_ & -> & _).
  rewrite Hc in Hrej. discriminate.
Qed.

Lemma fail_fast_await (env : Env) (X : Type) (c : Call (JSResult X)) :
  (forall r, rejection (Ev c r) = match r with inl e => Some e | inr _ => None end) ->
  forall h, fail_fast (fst (run env h (await c))) (snd (run env h (await c))).
Proof.
  intros Hc h l1 ev l2 e Heq Hrej. unfold await in *. cbn [run] in *.
  destruct (answer env h c) as [e0 | x] eqn:Ea; cbn in Heq |- *; symmetry in Heq;
    apply single_event_split in Heq; destruct Heq as (_ & -> & ->);
    rewrite Hc in Hrej.
  - injection Hrej as ->. split; reflexivity.
  - discriminate.
Qed.

Lemma fail_fast_message (env : Env) (m : PromptMessage) :
  forall h, fail_fast (fst (run env h (handleServerMessagePrompt m)))
              (snd (run env h (handleServerMessagePrompt m))).
Proof.
  unfold handleServerMessagePrompt.
  destruct (content m);
    try (intros h l1 ev l2 e Heq; destruct l1; discriminate Heq).
  apply fail_fast_bind; [apply fail_fast_perform; reflexivity | intros _].
  apply fail_fast_bind; [apply fail_fast_perform; reflexivity | intros run_it].
  destruct (negb run_it).
  - intros h l1 ev l2 e Heq; destruct l1; discriminate Heq.
  - apply fail_fast_bind; [apply fail_fast_await; reflexivity | intros r].
    intros h l1 ev l2 e Heq; destruct l1; discriminate Heq.
Qed.

(** X3: [main] has no error boundary: the first call whose promise is
    rejected, in whichever branch of the menu, is the last event of the
    session, and [main] ends by throwing that error. *)
Theorem main_fails_fast (JSON_parse : string -> JSResult JSON) (env : Env)
  (h : list Event) (fuel : nat) (t1 t2 : list Event) (ev : Event) (e : JSError) :
  trace env h (main JSON_parse fuel) = (t1 ++ ev :: t2)%list ->
  rejection ev = Some e ->
  t2 = [] /\ outcome env h (main JSON_parse fuel) = Thrown e.
Proof.
  unfold trace, outcome. revert t1 ev t2 e.
  change (fail_fast (fst (run env h (main JSON_parse fuel)))
            (snd (run env h (main JSON_parse fuel)))).
  apply (holds_main JSON_parse env (@fail_fast)); intros.
  - intros l1 ev0 l2 e0 Heq; destruct l1; discriminate Heq.
  - intros l1 ev0 l2 e0 Heq; destruct l1; discriminate Heq.
  - apply fail_fast_perform; assumption.
  - apply fail_fast_await; assumption.
  - apply fail_fast_message.
  - apply fail_fast_bind; assumption.
Qed.

Lemma main_fails_fast_witness :
  let env := menu_script ["Query"] "where is Oslo?" (throw "quota exceeded")
               (ok {| contents := [] |}) empty_snapshot in
  ([] : list Event) = []
  /\ outcome env [] (main (fun _ => throw "not JSON") 3) = Thrown "quota exceeded".
Proof.
  apply (@main_fails_fast (fun _ => throw "not JSON")
           (menu_script ["Query"] "where is Oslo?" (throw "quota exceeded")
              (ok {| contents := [] |}) empty_snapshot)
           [] 3
           (startup_events empty_snapshot
            ++ [Ev (Select "Select an option"
                      (map plain_choice ["Query"; "Tools"; "Resources"; "Prompts"; "Exit"]))
                   "Query";
                Ev (Input "Enter your query:") "where is Oslo?"])%list
           []
           (Ev (GenerateText (query_options "where is Oslo?" [])) (throw "quota exceeded"))
           "quota exceeded").
  - reflexivity.
  - reflexivity.
Defined.

Import JSFacts.

(** *** The texts of a payload *)




(** *** The Tools branch *)

Lemma tool_calls_app (t1 t2 : list Event) :
  tool_calls (t1 ++ t2) = (tool_calls t1 ++ tool_calls t2)%list.
Proof. unfold tool_calls. apply flat_map_app. Qed.

Lemma inputs_app (t1 t2 : list Event) : inputs (t1 ++ t2) = (inputs t1 ++ inputs t2)%list.
Proof. unfold inputs. apply flat_map_app. Qed.

Lemma resource_reads_app (t1 t2 : list Event) :
  resource_reads (t1 ++ t2) = (resource_reads t1 ++ resource_reads t2)%list.
Proof. unfold resource_reads. apply flat_map_app. Qed.

Lemma tool_arguments_run (env : Env) (props : list (string * SchemaProperty)) :
  forall h args0,
  exists t args,
    run env h (tool_arguments props args0) = (t, Returned args)
    /\ tool_calls t = []
    /\ length (inputs t) = length props
    /\ (forall k, obj_get args k <> None <-> obj_get args0 k <> None \/ In k (map fst props)).
Proof.
  induction props as [| [key value] rest IH]; intros h args0.
  - exists [], args0. repeat split; try reflexivity; [intros H; left; exact H |].
    intros [H | []]. exact H.
  - cbn [tool_arguments bind perform run].
    set (c := Input _). set (v := answer env h c).
    destruct (IH (h ++ [Ev c v])%list (obj_set args0 key v))
      as (t & args & Hrun & Hcalls & Hlen & Hkeys).
    exists (Ev c v :: t), args. rewrite Hrun. repeat split.
    + exact Hcalls.
    + unfold c, inputs in *. cbn. rewrite Hlen. reflexivity.
    + intros H. apply Hkeys in H. destruct H as [H | H]; [| right; right; exact H].
      destruct (string_dec k key) as [-> | Hne]; [right; left; reflexivity |].
      left. rewrite obj_get_set_other in H by exact Hne. exact H.
    + intros H. apply Hkeys.
      destruct (string_dec k key) as [-> | Hne].
      * left. rewrite obj_get_set_same. discriminate.
      * destruct H as [H | [H | H]]; [| simpl in H; congruence | right; exact H].
        left. rewrite obj_get_set_other by exact Hne. exact H.
Qed.

(** X5: [handleTool] asks one value per declared property of the tool,
    then calls that tool exactly once, with an argument map whose keys
    are the declared properties; it throws when the call is rejected or
    when the result has no content part, and returns otherwise. *)
Theorem handleTool_calls_once (env : Env) (h : list Event) (tool : Tool) :
  exists args r,
    tool_calls (trace env h (handleTool tool)) = [(tool_name tool, args, r)]
    /\ length (inputs (trace env h (handleTool tool))) = length (declared_properties tool)
    /\ (forall k, obj_get args k <> None <-> In k (map fst (declared_properties tool)))
    /\ outcome env h (handleTool tool)
       = match r with
         | inl e => Thrown e
         | inr res =>
             match tool_content res with
             | [] => Thrown (type_error_undefined "text")
             | _ :: _ => Returned tt
             end
         end.
Proof.
  unfold trace, outcome, handleTool. fold (declared_properties tool).
  cbn [bind perform run]. set (log := Ev (ConsoleLog _) _).
  rewrite run_bind.
  destruct (tool_arguments_run env (declared_properties tool) (h ++ [log])%list [])
    as (t & args & Hrun & Hcalls & Hlen & Hkeys).
  rewrite Hrun. unfold await. cbn [bind run].
  set (c := CallTool _ _). set (r := answer env _ c).
  exists args, r.
  assert (Hk : forall k, obj_get args k <> None <-> In k (map fst (declared_properties tool))).
  { intros k. rewrite Hkeys. cbn. split; [intros [H | H]; [congruence | exact H] | auto]. }
  assert (Hdone : forall l : list Event,
             tool_calls l = [] -> inputs l = [] ->
             tool_calls (log :: (t ++ Ev c r :: l)%list) = [(tool_name tool, args, r)]
             /\ length (inputs (log :: (t ++ Ev c r :: l)%list))
                = length (declared_properties tool)).
  { intros l Hl1 Hl2.
    change (log :: (t ++ Ev c r :: l)%list) with ([log] ++ t ++ [Ev c r] ++ l)%list.
    rewrite !tool_calls_app, !inputs_app, Hcalls, Hl1, Hl2. cbn.
    rewrite !app_nil_r. split; [reflexivity | exact Hlen]. }
  destruct r as [e | res] eqn:Er; cbn [bind run fst snd].
  - destruct (Hdone [] eq_refl eq_refl) as [H1 H2].
    split; [exact H1 | split; [exact H2 | split; [exact Hk | reflexivity]]].
  - destruct (tool_content res) as [| part rest]; cbn [bind perform run fst snd].
    + destruct (Hdone [] eq_refl eq_refl) as [H1 H2].
      split; [exact H1 | split; [exact H2 | split; [exact Hk | reflexivity]]].
    + match goal with
      | |- context [Ev c (inr res) :: [?ev]] =>
          destruct (Hdone [ev] eq_refl eq_refl) as [H1 H2]
      end.
      split; [exact H1 | split; [exact H2 | split; [exact Hk | reflexivity]]].
Qed.

Example handleTool_on_coordinates :
  run (menu_script [] "Oslo" (says "") (ok {| contents := [] |}) empty_snapshot) []
    (handleTool coordinates_tool)
  = ([Ev (ConsoleLog "Handling tool: get-coordinates") tt;
      Ev (Input "Enter value for city (string):") "Oslo";
      Ev (CallTool "get-coordinates" [("city", "Oslo")])
         (ok {| tool_content := [text_part "done"] |});
      Ev (ConsoleLog "Tool response: done") tt],
     Returned tt).
Proof. reflexivity. Qed.

(** *** The Resources branch *)

Lemma handleResource_read (JSON_parse : string -> JSResult JSON) (env : Env)
  (h t : list Event) (uri finalUri : string) :
  let log := Ev (ConsoleLog ("Handling resource: " ++ uri)) tt in
  run env (h ++ [log])%list (substitute_placeholders (match_placeholders uri) uri)
  = (t, Returned finalUri) ->
  exists r rest,
    trace env h (handleResource JSON_parse uri)
    = (log :: t ++ Ev (ReadResource finalUri) r :: rest)%list
    /\ inputs rest = [] /\ resource_reads rest = [].
Proof.
  intros log Hsub. unfold trace, handleResource.
  cbn [bind perform run answer]. fold log. rewrite run_bind, Hsub.
  unfold await. cbn [bind run].
  exists (answer env ((h ++ [log]) ++ t)%list (ReadResource finalUri)).
  destruct (answer env _ (ReadResource finalUri)) as [e | res]; cbn [bind run fst].
  - exists []. repeat split.
  - destruct (contents res) as [| c rest]; cbn [run fst].
    + exists []. repeat split.
    + destruct (JSON_parse _); cbn [bind perform run fst]; eexists; repeat split.
Qed.

(** X6: for a URI without an opening brace, [handleResource] asks
    nothing and reads that very URI, once. *)
Theorem handleResource_static (JSON_parse : string -> JSResult JSON) (env : Env)
  (h : list Event) (uri : string) :
  has_char "{" uri = false ->
  inputs (trace env h (handleResource JSON_parse uri)) = []
  /\ resource_reads (trace env h (handleResource JSON_parse uri)) = [uri].
Proof.
  intros Hstatic.
  destruct (@handleResource_read JSON_parse env h [] uri uri) as (r & rest & -> & Hi & Hr).
  { rewrite (@match_placeholders_static uri Hstatic). reflexivity. }
  cbn [app].
  change (?a :: ?b :: rest) with ([a; b] ++ rest)%list.
  rewrite inputs_app, resource_reads_app, Hi, Hr. split; reflexivity.
Qed.

Lemma handleResource_static_witness :
  inputs (trace (menu_script [] "" (says "") (ok {| contents := [] |}) empty_snapshot) []
            (handleResource sample_parser "users://all")) = []
  /\ resource_reads (trace (menu_script [] "" (says "") (ok {| contents := [] |}) empty_snapshot)
                       [] (handleResource sample_parser "users://all")) = ["users://all"].
Proof.
  apply (@handleResource_static sample_parser
           (menu_script [] "" (says "") (ok {| contents := [] |}) empty_snapshot)
           [] "users://all").
  reflexivity.
Defined.

(** X7: for a template with one placeholder, [handleResource] asks for
    the value under the name between the braces and reads the template
    with the placeholder replaced by the value typed, when that value
    holds no dollar sign. *)
Theorem handleResource_template (JSON_parse : string -> JSResult JSON) (env : Env)
  (h : list Event) (pre name post : string) :
  let uri := pre ++ "{" ++ name ++ "}" ++ post in
  let question := "Enter value for " ++ name ++ ":" in
  let value :=
    on_input env (h ++ [Ev (ConsoleLog ("Handling resource: " ++ uri)) tt])%list question in
  has_char "{" pre = false ->
  has_char "}" name = false ->
  name <> "" ->
  has_char "{" post = false ->
  has_char "$" value = false ->
  inputs (trace env h (handleResource JSON_parse uri)) = [(question, value)]
  /\ resource_reads (trace env h (handleResource JSON_parse uri)) = [pre ++ value ++ post].
Proof.
  intros uri question value Hpre Hname Hne Hpost Hvalue.
  assert (Huri : replace_first uri ("{" ++ name ++ "}") value = pre ++ value ++ post).
  { unfold uri.
    change ("{" ++ name ++ "}" ++ post) with (String "{" (name ++ "}" ++ post)).
    rewrite <- string_app_assoc.
    change (String "{" ((name ++ "}") ++ post)) with (String "{" (name ++ "}") ++ post).
    apply (@replace_first_at "{" (name ++ "}") pre post value Hpre Hvalue). }
  destruct (@handleResource_read JSON_parse env h [Ev (Input question) value] uri
              (pre ++ value ++ post)) as (r & rest & -> & Hi & Hr).
  { unfold uri at 2.
    rewrite (@match_placeholders_single pre name post Hpre Hname Hne Hpost).
    cbn [substitute_placeholders]. rewrite (@placeholder_name name Hname).
    cbn [bind perform run answer]. fold uri. fold question. fold value.
    rewrite Huri. reflexivity. }
  cbn [app].
  change (?a :: ?b :: ?c :: rest) with ([a; b; c] ++ rest)%list.
  rewrite inputs_app, resource_reads_app, Hi, Hr. split; reflexivity.
Qed.

Lemma handleResource_template_witness :
  let env := menu_script [] "7" (says "") (ok {| contents := [] |}) empty_snapshot in
  inputs (trace env [] (handleResource sample_parser "users://{id}/profile"))
  = [("Enter value for id:", "7")]
  /\ resource_reads (trace env [] (handleResource sample_parser "users://{id}/profile"))
     = ["users://7/profile"].
Proof.
  apply (@handleResource_template sample_parser
           (menu_script [] "7" (says "") (ok {| contents := [] |}) empty_snapshot)
           [] "users://" "id" "/profile"); try reflexivity.
  discriminate.
Defined.

(** *** The tool set of a query *)

Lemma find_app {A} (f : A -> bool) (l1 l2 : list A) :
  find f (l1 ++ l2) = match find f l1 with Some x => Some x | None => find f l2 end.
Proof.
  induction l1 as [| x l1 IH]; simpl; [reflexivity |].
  destruct (f x); [reflexivity | exact IH].
Qed.

Lemma toolSet_fold (name : string) (ts : list Tool) :
  forall acc : ToolSet,
    obj_get (fold_left (fun obj tool => obj_set obj (tool_name tool) (toolSet_entry tool)) ts acc)
      name
    = match find (fun t => tool_name t =? name) (rev ts) with
      | Some t => Some (toolSet_entry t)
      | None => obj_get acc name
      end.
Proof.
  induction ts as [| t ts IH]; intros acc; [reflexivity |].
  cbn [fold_left rev]. rewrite IH, find_app.
  destruct (find _ (rev ts)); [reflexivity |].
  cbn [find]. destruct (tool_name t =? name) eqn:E.
  - apply String.eqb_eq in E. subst name. apply obj_get_set_same.
  - apply String.eqb_neq in E. apply obj_get_set_other. congruence.
Qed.

Lemma toolSet_fold_NoDup (ts : list Tool) :
  forall acc : ToolSet,
    NoDup (map fst acc) ->
    NoDup (map fst (fold_left
                      (fun obj tool => obj_set obj (tool_name tool) (toolSet_entry tool))
                      ts acc)).
Proof.
  induction ts as [| t ts IH]; intros acc Hacc; [exact Hacc |].
  cbn [fold_left]. apply IH. apply obj_set_NoDup. exact Hacc.
Qed.

(** X8: the tool set handed to the model has one entry per tool name;
    under a name it holds the last tool listed with that name, nothing
    under a name that was not listed, and each entry executes its own
    name. *)
Theorem toolSet_lookup (ts : list Tool) (name : string) :
  obj_get (toolSet ts) name
  = option_map toolSet_entry (find (fun t => tool_name t =? name) (rev ts))
  /\ NoDup (map fst (toolSet ts))
  /\ (forall entry, obj_get (toolSet ts) name = Some entry -> execute_name entry = name).
Proof.
  assert (Hget : obj_get (toolSet ts) name
                 = option_map toolSet_entry (find (fun t => tool_name t =? name) (rev ts))).
  { etransitivity; [exact (toolSet_fold name ts []) |].
    destruct (find _ (rev ts)); reflexivity. }
  split; [exact Hget |]. split.
  - exact (toolSet_fold_NoDup ts [] (NoDup_nil string)).
  - intros entry. rewrite Hget.
    destruct (find (fun t => tool_name t =? name) (rev ts)) as [t |] eqn:Ef; [| discriminate].
    intros H. injection H as <-. apply find_some in Ef. destruct Ef as [_ Ef].
    apply String.eqb_eq in Ef. exact Ef.
Qed.

End ClientCoverage.

(** ** Further properties of the server *)

Module ServerCoverage.

Import Protocol Server UserStore JSFacts ServerTheory.

(** *** Decimal ids *)

Ltac eval_digit :=
  match goal with
  | |- context [digit_of 10 ?c] =>
      let v := eval vm_compute in (digit_of 10 c) in
      change (digit_of 10 c) with v; cbv beta iota
  end.

Lemma parse_digits_pos (d : Decimal.uint) :
  forall acc : positive,
    parse_digits 10 (Some (Zpos acc)) (NilEmpty.string_of_uint d)
    = Some (Zpos (Pos.of_uint_acc d acc)).
Proof.
  induction d; intros acc; cbn [NilEmpty.string_of_uint Pos.of_uint_acc];
    [reflexivity | ..];
    cbn [parse_digits]; eval_digit; rewrite <- IHd; f_equal; f_equal; lia.
Qed.

Lemma parse_digits_zero (d : Decimal.uint) :
  parse_digits 10 (Some 0%Z) (NilEmpty.string_of_uint d) = Some (Z.of_N (Pos.of_uint d)).
Proof.
  induction d; cbn [NilEmpty.string_of_uint Pos.of_uint];
    [reflexivity | ..]; cbn [parse_digits]; eval_digit;
    [exact IHd | ..]; apply parse_digits_pos.
Qed.

Lemma parse_digits_start (d : Decimal.uint) :
  d <> Decimal.Nil ->
  parse_digits 10 None (NilEmpty.string_of_uint d) = Some (Z.of_N (Pos.of_uint d)).
Proof.
  intros Hd. destruct d; [contradiction | ..];
    cbn [NilEmpty.string_of_uint Pos.of_uint parse_digits]; eval_digit;
    [apply parse_digits_zero | ..]; apply parse_digits_pos.
Qed.

(** A decimal numeral has no space, sign or hexadecimal prefix in
    front. *)
Lemma numeral_front (d : Decimal.uint) :
  d <> Decimal.Nil ->
  strip_hex_prefix (snd (strip_sign (skip_spaces (NilEmpty.string_of_uint d))))
  = (10%Z, NilEmpty.string_of_uint d)
  /\ fst (strip_sign (skip_spaces (NilEmpty.string_of_uint d))) = 1%Z.
Proof.
  intros Hd. destruct d as [| d | d | d | d | d | d | d | d | d | d];
    [contradiction | destruct d | ..]; split; reflexivity.
Qed.

Lemma parseInt_uint (d : Decimal.uint) :
  d <> Decimal.Nil ->
  parseInt (NilEmpty.string_of_uint d) = Int (Z.of_N (Pos.of_uint d)).
Proof.
  intros Hd. unfold parseInt.
  destruct (numeral_front Hd) as [Hhex Hsign].
  destruct (strip_sign (skip_spaces (NilEmpty.string_of_uint d))) as [sign s1].
  cbn [fst snd] in *. subst sign. rewrite Hhex, (parse_digits_start Hd).
  destruct (Z.of_N (Pos.of_uint d)); reflexivity.
Qed.

(** The decimal text of a positive id reads back as that id. *)
Lemma parseInt_Z_to_string (n : Z) : (0 < n)%Z -> parseInt (Z_to_string n) = Int n.
Proof.
  intros Hn. destruct n as [| p | p]; try lia.
  unfold Z_to_string, Z.to_int, NilZero.string_of_int.
  pose proof (Unsigned.to_uint_nonnil p) as Hnil.
  assert (Hs : NilZero.string_of_uint (Pos.to_uint p)
               = NilEmpty.string_of_uint (Pos.to_uint p))
    by (destruct (Pos.to_uint p); [contradiction | reflexivity ..]).
  rewrite Hs, (@parseInt_uint (Pos.to_uint p) Hnil), Unsigned.of_to. reflexivity.
Qed.

(** *** Creating users *)

Section Runtime.

Variable JSON_parse : string -> JSResult JSON.
Variable env : Env.

(** What [createUser] does with any user value on a store of [items]. *)
Lemma createUser_run (st st1 : Store) (items : list JSON) (user : JSON) :
  import_users JSON_parse st = (ok (JArr items), st1) ->
  let id := (Z.of_nat (length items) + 1)%Z in
  let users := JArr (items ++ [JObj (obj_spread [("id", JNum id)] user)])%list in
  createUser JSON_parse env user st
  = match writeFile_error env users_path (stringify users) with
    | None => (ok id, {| users_module := Some users;
                         users_file := Some (stringify users);
                         stdout := stdout st1 |})
    | Some e => (throw e, {| users_module := Some users;
                             users_file :=
                               failed_write env users_path (stringify users) (users_file st1);
                             stdout := stdout st1 |})
    end.
Proof.
  intros Himp id users. unfold createUser, bind. rewrite Himp.
  unfold ok at 1. cbv beta iota. fold id. fold users.
  unfold push_user, writeFile, ret. cbn [users_module users_file stdout].
  destruct (writeFile_error env users_path (stringify users)); reflexivity.
Qed.

Lemma create_user_run (st st1 : Store) (items : list JSON) (name email : string) :
  import_users JSON_parse st = (ok (JArr items), st1) ->
  let id := (Z.of_nat (length items) + 1)%Z in
  let users := JArr (items ++ [user_record id name email])%list in
  create_user JSON_parse env name email st
  = match writeFile_error env users_path (stringify users) with
    | None => (ok (text_result ("User " ++ Z_to_string id ++ " created successfully: "
                                ++ name ++ " (" ++ email ++ ")")),
               {| users_module := Some users;
                  users_file := Some (stringify users);
                  stdout := stdout st1 |})
    | Some e => (ok (text_result ("Error creating user: " ++ e)),
                 {| users_module := Some users;
                    users_file :=
                      failed_write env users_path (stringify users) (users_file st1);
                    stdout := stdout st1 |})
    end.
Proof.
  intros Himp id users. unfold create_user, try_catch, bind.
  rewrite (@createUser_run st st1 items _ Himp).
  change (JObj (obj_spread [("id", JNum (Z.of_nat (length items) + 1))]
                  (JObj [("name", JStr name); ("email", JStr email)])))
    with (user_record id name email).
  fold users. destruct (writeFile_error env users_path (stringify users)); reflexivity.
Qed.

Lemma next_id (items : list JSON) (u : JSON) :
  (Z.of_nat (length (items ++ [u])) + 1 = Z.of_nat (length items) + 2)%Z.
Proof. rewrite List.length_app. cbn [length]. lia. Qed.

(** X9: two creations in a row on a store of N users give the ids N+1
    and N+2, and the listing then ends with the two records in the
    order of creation. *)
Theorem create_user_twice (st st1 : Store) (items : list JSON)
  (name1 email1 name2 email2 href : string) :
  import_users JSON_parse st = (ok (JArr items), st1) ->
  let n := Z.of_nat (length items) in
  let first := create_user JSON_parse env name1 email1 st in
  let second := create_user JSON_parse env name2 email2 (snd first) in
  fst (users_resource JSON_parse href (snd second))
  = ok (json_contents href
          (JArr (items ++ [user_record (n + 1) name1 email1;
                           user_record (n + 2) name2 email2])))
  /\ ((forall path data, writeFile_error env path data = None) ->
      fst first = ok (text_result ("User " ++ Z_to_string (n + 1) ++ " created successfully: "
                                   ++ name1 ++ " (" ++ email1 ++ ")"))
      /\ fst second = ok (text_result ("User " ++ Z_to_string (n + 2)
                                       ++ " created successfully: "
                                       ++ name2 ++ " (" ++ email2 ++ ")"))).
Proof.
  intros Himp n first second.
  pose proof (@create_user_run st st1 items name1 email1 Himp) as H1.
  cbv zeta in H1. fold n in H1. fold first in H1.
  set (users1 := JArr (items ++ [user_record (n + 1) name1 email1])) in *.
  assert (Hmod1 : users_module (snd first) = Some users1).
  { rewrite H1. destruct (writeFile_error env users_path (stringify users1)); reflexivity. }
  pose proof (@create_user_run (snd first) (snd first) _ name2 email2
                (import_users_loaded JSON_parse _ Hmod1)) as H2.
  cbv zeta in H2. fold second in H2. rewrite next_id in H2. fold n in H2.
  rewrite <- app_assoc in H2. cbn [app] in H2.
  set (users2 := JArr (items ++ [user_record (n + 1) name1 email1;
                                 user_record (n + 2) name2 email2])) in *.
  assert (Hmod2 : users_module (snd second) = Some users2).
  { rewrite H2. destruct (writeFile_error env users_path (stringify users2)); reflexivity. }
  split.
  - unfold users_resource, bind. rewrite (import_users_loaded JSON_parse _ Hmod2). reflexivity.
  - intros Hwrite. rewrite H1, H2, !Hwrite. split; reflexivity.
Qed.

(** X10: when the write of the file fails, the tool reports the error
    and the file holds what the failed write left, but the record stays
    among the users of the running server: the next creation gets the id
    after it, and its write puts both records in the file. *)
Theorem create_user_after_failed_write (st st1 : Store) (items : list JSON)
  (name1 email1 name2 email2 : string) (e : JSError) :
  import_users JSON_parse st = (ok (JArr items), st1) ->
  let n := Z.of_nat (length items) in
  let users1 := JArr (items ++ [user_record (n + 1) name1 email1]) in
  let users2 := JArr (items ++ [user_record (n + 1) name1 email1;
                                user_record (n + 2) name2 email2]) in
  let first := create_user JSON_parse env name1 email1 st in
  let second := create_user JSON_parse env name2 email2 (snd first) in
  writeFile_error env users_path (stringify users1) = Some e ->
  writeFile_error env users_path (stringify users2) = None ->
  fst first = ok (text_result ("Error creating user: " ++ e))
  /\ users_file (snd first)
     = failed_write env users_path (stringify users1) (users_file st1)
  /\ users_module (snd first) = Some users1
  /\ fst second = ok (text_result ("User " ++ Z_to_string (n + 2) ++ " created successfully: "
                                   ++ name2 ++ " (" ++ email2 ++ ")"))
  /\ users_module (snd second) = Some users2
  /\ users_file (snd second) = Some (stringify users2).
Proof.
  intros Himp n users1 users2 first second Hfail Hok.
  pose proof (@create_user_run st st1 items name1 email1 Himp) as H1.
  cbv zeta in H1. fold n in H1. fold first in H1. fold users1 in H1.
  rewrite Hfail in H1.
  assert (Hmod1 : users_module (snd first) = Some users1) by (rewrite H1; reflexivity).
  pose proof (@create_user_run (snd first) (snd first) _ name2 email2
                (import_users_loaded JSON_parse _ Hmod1)) as H2.
  cbv zeta in H2. fold second in H2. rewrite next_id in H2. fold n in H2.
  rewrite <- app_assoc in H2. cbn [app] in H2. fold users2 in H2.
  rewrite Hok in H2.
  rewrite H1, H2. repeat split.
Qed.

(** *** Looking a user up *)

Lemma find_by_id_first (pre post : list JSON) (u : JSON) (n : Number) :
  Forall is_record pre ->
  (forall p, In p pre -> ~ has_id p n) ->
  has_id u n ->
  find_by_id (pre ++ u :: post) n = ok (Some u).
Proof.
  intros Hrec Hno (fields & m & -> & Hid & ->).
  induction pre as [| p pre IH]; cbn [app find_by_id].
  - cbn [get_prop]. unfold ok at 1. cbv beta iota. rewrite Hid.
    cbn [strict_eq_number strict_eq_num]. rewrite Z.eqb_refl. reflexivity.
  - inversion Hrec as [| p' pre' [pf ->] Hpre]; subst.
    cbn [get_prop]. unfold ok at 1. cbv beta iota.
    destruct (strict_eq_number (obj_get pf "id") (Int m)) eqn:E.
    + exfalso. apply (Hno (JObj pf) (or_introl eq_refl)).
      cbn [strict_eq_number strict_eq_num] in E.
      destruct (obj_get pf "id") as [[| | m' | | | |] |] eqn:Eg; try discriminate.
      apply Z.eqb_eq in E. subst m'. exists pf, m. repeat split. exact Eg.
    + apply IH; [exact Hpre |]. intros q Hq. apply Hno. right. exact Hq.
Qed.

Lemma user_details_first_match_aux (st : Store) (pre post : list JSON) (u : JSON)
  (href id : string) :
  users_module st = Some (JArr (pre ++ u :: post)) ->
  Forall is_record pre ->
  (forall p, In p pre -> ~ has_id p (parseInt id)) ->
  has_id u (parseInt id) ->
  fst (user_details JSON_parse href id st) = ok (json_contents href u).
Proof.
  intros Hmod Hrec Hno Hid.
  unfold user_details, bind, lift. rewrite (import_users_loaded JSON_parse _ Hmod).
  unfold ok at 1. cbv beta iota. unfold users_find.
  rewrite (find_by_id_first post Hrec Hno Hid).
  unfold ok at 1. cbv beta iota.
  destruct Hid as (fields & m & -> & _ & _). reflexivity.
Qed.

(** X11: [users://{id}/profile] returns the first record of the store
    whose id is the number read from [id], pretty-printed. The records
    looked at are well-formed, and the number read from the id is within
    the integers that the runtime holds exactly, where reading and
    printing are exact in the runtime as they are here. *)
Theorem user_details_first_match (st st1 : Store) (pre post : list JSON) (u : JSON)
  (href id : string) :
  import_users JSON_parse st = (ok (JArr (pre ++ u :: post)), st1) ->
  Forall is_record pre ->
  Forall (fun p => well_formed p = true) pre ->
  well_formed u = true ->
  safe_number (parseInt id) = true ->
  (forall p, In p pre -> ~ has_id p (parseInt id)) ->
  has_id u (parseInt id) ->
  user_details JSON_parse href id st = (ok (json_contents href u), st1).
Proof.
  intros Himp Hrec _ _ _ Hno Hid.
  unfold user_details, bind, lift. rewrite Himp.
  unfold ok at 1. cbv beta iota. unfold users_find.
  rewrite (find_by_id_first post Hrec Hno Hid).
  unfold ok at 1. cbv beta iota.
  destruct Hid as (fields & m & -> & _ & _). reflexivity.
Qed.

(** X12: after the create-user tool on a store of N records none of
    which has the id N+1, reading the profile under the decimal text of
    N+1 returns the record just created. *)
Theorem create_user_then_profile (st st1 : Store) (items : list JSON)
  (name email href : string) :
  import_users JSON_parse st = (ok (JArr items), st1) ->
  let id := (Z.of_nat (length items) + 1)%Z in
  Forall is_record items ->
  (forall p, In p items -> ~ has_id p (Int id)) ->
  fst (user_details JSON_parse href (Z_to_string id)
         (snd (create_user JSON_parse env name email st)))
  = ok (json_contents href (user_record id name email)).
Proof.
  intros Himp id Hrec Hno.
  pose proof (@create_user_run st st1 items name email Himp) as H1.
  cbv zeta in H1. fold id in H1.
  set (after := snd (create_user JSON_parse env name email st)).
  assert (Hmod : users_module after = Some (JArr (items ++ [user_record id name email]))).
  { unfold after. rewrite H1. destruct (writeFile_error env _ _); reflexivity. }
  assert (Hparse : parseInt (Z_to_string id) = Int id)
    by (apply parseInt_Z_to_string; unfold id; lia).
  rewrite (@user_details_first_match_aux after items [] (user_record id name email)
             href (Z_to_string id) Hmod Hrec).
  - reflexivity.
  - rewrite Hparse. exact Hno.
  - rewrite Hparse. exists [("id", JNum id); ("name", JStr name); ("email", JStr email)], id.
    repeat split.
Qed.

(** *** The geocoding tool *)

Lemma bind_lift {A B} (r : JSResult A) (f : A -> M B) (st : Store) :
  bind (lift r) f st = match r with inl e => (inl e, st) | inr a => f a st end.
Proof. unfold bind, lift. destruct r; reflexivity. Qed.

(** X13: get-coordinates always answers with one text part and leaves
    the store exactly as it was, whatever the service does. *)
Theorem get_coordinates_read_only (city : string) (st : Store) :
  exists t, get_coordinates env city st = (ok (text_result t), st).
Proof.
  unfold get_coordinates, try_catch, get_coordinates_body.
  rewrite bind_lift.
  destruct (match fetch env (geocoding_url city) with
            | FetchRejected e => throw e
            | Response json => json
            end) as [e | data]; [eexists; reflexivity |].
  rewrite bind_lift.
  destruct (get_prop data "results") as [e | results]; [eexists; reflexivity |].
  rewrite bind_lift.
  destruct (get_prop_opt results "length") as [e | len]; [eexists; reflexivity |].
  destruct (strict_eq_num len 0); [eexists; reflexivity |].
  rewrite bind_lift.
  destruct (get_prop_opt results "0") as [e | first]; [eexists; reflexivity |].
  rewrite bind_lift.
  destruct (get_prop_opt first "latitude") as [e | latitude]; [eexists; reflexivity |].
  rewrite bind_lift.
  destruct (get_prop_opt first "longitude") as [e | longitude]; eexists; reflexivity.
Qed.

(** X14: when the answer of the service is an object without a
    [results] member, the tool does not say that no data was found: it
    reports the type error of reading [length] of [undefined]. *)
Theorem get_coordinates_without_results (city : string) (st : Store)
  (fields : list (string * JSON)) :
  fetch env (geocoding_url city) = Response (ok (JObj fields)) ->
  obj_get fields "results" = None ->
  get_coordinates env city st
  = (ok (text_result ("Error fetching coordinates data for " ++ city
                      ++ ": Cannot read properties of undefined (reading 'length')")), st).
Proof.
  intros Hfetch Hres.
  unfold get_coordinates, get_coordinates_body, try_catch, bind, lift.
  rewrite Hfetch. unfold ok. cbv beta iota. cbn [get_prop]. unfold ok. cbv beta iota.
  rewrite Hres. reflexivity.
Qed.


End Runtime.

(** *** The random user *)

Lemma obj_spread_get (fields : list (string * JSON)) (k : string) :
  NoDup (map fst fields) ->
  forall base,
    obj_get (obj_spread base (JObj fields)) k
    = match obj_get fields k with
      | Some v => Some v
      | None => obj_get base k
      end.
Proof.
  unfold obj_spread. cbn [own_properties].
  induction fields as [| [k1 v1] rest IH]; intros Hnd base; [reflexivity |].
  inversion Hnd as [| x l Hnotin Hrest]; subst.
  cbn [fold_left fst snd obj_get]. rewrite (IH Hrest).
  destruct (k1 =? k) eqn:E.
  - apply String.eqb_eq in E. subst k1.
    assert (Hnone : obj_get rest k = None).
    { destruct (obj_get rest k) eqn:Eg; [| reflexivity].
      exfalso. apply Hnotin. apply obj_get_in. congruence. }
    rewrite Hnone. apply obj_get_set_same.
  - apply String.eqb_neq in E.
    destruct (obj_get rest k); [reflexivity |].
    apply obj_get_set_other. congruence.
Qed.









(** White space beyond ASCII is stripped as well: a no-break space
    (U+00A0) in front of an id, a line separator (U+2028) and an
    ideographic space (U+3000) around a text; a zero width space (U+200B)
    is not white space. *)
Lemma white_space_examples :
  let nbsp := String (ascii_of_nat 194) (String (ascii_of_nat 160) "") in
  let line_separator :=
    String (ascii_of_nat 226) (String (ascii_of_nat 128) (String (ascii_of_nat 168) "")) in
  let ideographic :=
    String (ascii_of_nat 227) (String (ascii_of_nat 128) (String (ascii_of_nat 128) "")) in
  let zero_width :=
    String (ascii_of_nat 226) (String (ascii_of_nat 128) (String (ascii_of_nat 139) "")) in
  parseInt (nbsp ++ " 7") = Int 7
  /\ parseInt (zero_width ++ "7") = NaN
  /\ trim (line_separator ++ " {} " ++ nl ++ ideographic ++ nbsp) = "{}"
  /\ trim (zero_width ++ " {}") = zero_width ++ " {}".
Proof. repeat split. Qed.



Section Sampling.

Variable JSON_parse : string -> JSResult JSON.
Variable env : Env.

(** What create-random-user does with a text reply that parses, on a
    loaded store and a disk that accepts the write. *)
Lemma create_random_user_run (st : Store) (items : list JSON) (res : CreateMessageResult)
  (t : string) (user : JSON) :
  createMessage env random_user_request = ok res ->
  result_content res = TextContent t ->
  JSON_parse (trim (strip_fence_close (strip_fence_open (trim t)))) = ok user ->
  users_module st = Some (JArr items) ->
  (forall path data, writeFile_error env path data = None) ->
  let id := (Z.of_nat (length items) + 1)%Z in
  let users := JArr (items ++ [JObj (obj_spread [("id", JNum id)] user)])%list in
  create_random_user JSON_parse env st
  = (ok (text_result ("Fake user created successfully: " ++ Z_to_string id)),
     {| users_module := Some users;
        users_file := Some (stringify users);
        stdout := (stdout st ++ [t])%list |}).
Proof.
  intros Hmsg Hcontent Hparse Hmod Hwrite id users.
  unfold create_random_user. rewrite bind_lift, Hmsg. unfold ok at 1. cbv beta iota.
  rewrite Hcontent. unfold bind at 1. unfold console_log at 1. cbv beta iota.
  unfold try_catch. rewrite bind_lift, Hparse. unfold ok. cbv beta iota.
  unfold bind at 1.
  match goal with
  | |- context [createUser JSON_parse env user ?logged] =>
      assert (Hlogged : users_module logged = Some (JArr items)) by exact Hmod;
      rewrite (@createUser_run JSON_parse env logged logged items user
                 (import_users_loaded JSON_parse logged Hlogged))
  end.
  rewrite Hwrite. reflexivity.
Qed.

(** X16: when the object made by the model has an [id] of its own, the
    tool still reports the next sequential id, but the record it stores
    carries the id of the model. *)
Theorem create_random_user_keeps_model_id (st : Store) (items : list JSON)
  (res : CreateMessageResult) (t : string) (fields : list (string * JSON)) (v : JSON) :
  createMessage env random_user_request = ok res ->
  result_content res = TextContent t ->
  JSON_parse (trim (strip_fence_close (strip_fence_open (trim t)))) = ok (JObj fields) ->
  NoDup (map fst fields) ->
  obj_get fields "id" = Some v ->
  users_module st = Some (JArr items) ->
  (forall path data, writeFile_error env path data = None) ->
  fst (create_random_user JSON_parse env st)
  = ok (text_result ("Fake user created successfully: "
                     ++ Z_to_string (Z.of_nat (length items) + 1)))
  /\ exists record,
       users_module (snd (create_random_user JSON_parse env st))
       = Some (JArr (items ++ [JObj record]))
       /\ obj_get record "id" = Some v.
Proof.
  intros Hmsg Hcontent Hparse Hnd Hid Hmod Hwrite.
  rewrite (@create_random_user_run st items res t (JObj fields)
             Hmsg Hcontent Hparse Hmod Hwrite).
  split; [reflexivity |]. eexists. split; [reflexivity |].
  rewrite (@obj_spread_get fields "id" Hnd), Hid. reflexivity.
Qed.


End Sampling.

Lemma two_users_no_3 : forall p,
  In p [user_record 1 "Grace" "grace@example.com"; user_record 2 "Alan" "alan@example.com"] ->
  ~ has_id p (Int 3).
Proof.
  intros p [<- | [<- | []]] (fields & m & Hu & Hid & Hn);
    injection Hu as <-; simpl in Hid; injection Hid as <-; discriminate Hn.
Defined.

Lemma grace_is_not_2 : forall p,
  In p [user_record 1 "Grace" "grace@example.com"] -> ~ has_id p (parseInt "2").
Proof.
  intros p [<- | []] (fields & m & Hu & Hid & Hn);
    injection Hu as <-; simpl in Hid; injection Hid as <-; discriminate Hn.
Defined.

Lemma alan_is_2 : has_id (user_record 2 "Alan" "alan@example.com") (parseInt "2").
Proof.
  exists [("id", JNum 2); ("name", JStr "Alan"); ("email", JStr "alan@example.com")], 2%Z.
  repeat split.
Defined.

Lemma create_user_twice_witness :
  let first := create_user sample_parse working_env "Ada" "ada@example.com" two_users in
  let second := create_user sample_parse working_env "Edsger" "ewd@example.com" (snd first) in
  fst (users_resource sample_parse "users://all" (snd second))
  = ok (json_contents "users://all"
          (JArr [user_record 1 "Grace" "grace@example.com";
                 user_record 2 "Alan" "alan@example.com";
                 user_record 3 "Ada" "ada@example.com";
                 user_record 4 "Edsger" "ewd@example.com"]))
  /\ fst first = ok (text_result "User 3 created successfully: Ada (ada@example.com)")
  /\ fst second = ok (text_result "User 4 created successfully: Edsger (ewd@example.com)").
Proof.
  destruct (@create_user_twice sample_parse working_env two_users two_users
              [user_record 1 "Grace" "grace@example.com";
               user_record 2 "Alan" "alan@example.com"]
              "Ada" "ada@example.com" "Edsger" "ewd@example.com" "users://all" eq_refl)
    as [Hlist Hreport].
  split; [exact Hlist | exact (Hreport (fun _ _ => eq_refl))].
Defined.

Lemma create_user_after_failed_write_witness :
  let users1 := JArr [user_record 1 "Grace" "grace@example.com";
                      user_record 2 "Alan" "alan@example.com";
                      user_record 3 "Ada" "ada@example.com"] in
  let users2 := JArr [user_record 1 "Grace" "grace@example.com";
                      user_record 2 "Alan" "alan@example.com";
                      user_record 3 "Ada" "ada@example.com";
                      user_record 4 "Edsger" "ewd@example.com"] in
  let env := flaky_env (stringify users1) in
  let first := create_user sample_parse env "Ada" "ada@example.com" two_users in
  let second := create_user sample_parse env "Edsger" "ewd@example.com" (snd first) in
  fst first = ok (text_result "Error creating user: EIO: i/o error")
  /\ users_file (snd first) = Some (substring 0 16 (stringify users1))
  /\ users_module (snd first) = Some users1
  /\ fst second = ok (text_result "User 4 created successfully: Edsger (ewd@example.com)")
  /\ users_module (snd second) = Some users2
  /\ users_file (snd second) = Some (stringify users2).
Proof.
  apply (@create_user_after_failed_write sample_parse
           (flaky_env (stringify (JArr [user_record 1 "Grace" "grace@example.com";
                                        user_record 2 "Alan" "alan@example.com";
                                        user_record 3 "Ada" "ada@example.com"])))
           two_users two_users
           [user_record 1 "Grace" "grace@example.com"; user_record 2 "Alan" "alan@example.com"]
           "Ada" "ada@example.com" "Edsger" "ewd@example.com" "EIO: i/o error");
    reflexivity.
Defined.

Lemma user_details_first_match_witness :
  user_details sample_parse "users://2/profile" "2" two_users
  = (ok (json_contents "users://2/profile" (user_record 2 "Alan" "alan@example.com")),
     two_users).
Proof.
  apply (@user_details_first_match sample_parse two_users two_users
           [user_record 1 "Grace" "grace@example.com"] []
           (user_record 2 "Alan" "alan@example.com") "users://2/profile" "2").
  - reflexivity.
  - repeat constructor. eexists; reflexivity.
  - repeat constructor.
  - reflexivity.
  - reflexivity.
  - exact grace_is_not_2.
  - exact alan_is_2.
Defined.

Lemma create_user_then_profile_witness :
  fst (user_details sample_parse "users://3/profile" "3"
         (snd (create_user sample_parse working_env "Ada" "ada@example.com" two_users)))
  = ok (json_contents "users://3/profile" (user_record 3 "Ada" "ada@example.com")).
Proof.
  apply (@create_user_then_profile sample_parse working_env two_users two_users
           [user_record 1 "Grace" "grace@example.com"; user_record 2 "Alan" "alan@example.com"]
           "Ada" "ada@example.com" "users://3/profile").
  - reflexivity.
  - exact two_users_records.
  - exact two_users_no_3.
Defined.

Lemma get_coordinates_without_results_witness :
  get_coordinates (geocoding_env (JObj [("generationtime_ms", JNum 1)])) "Atlantis" two_users
  = (ok (text_result ("Error fetching coordinates data for Atlantis"
                      ++ ": Cannot read properties of undefined (reading 'length')")),
     two_users).
Proof.
  apply (@get_coordinates_without_results
           (geocoding_env (JObj [("generationtime_ms", JNum 1)])) "Atlantis" two_users
           [("generationtime_ms", JNum 1)]); reflexivity.
Defined.


Lemma create_random_user_keeps_model_id_witness :
  let env := sampling_env (stringify model_user) in
  let parse := parse_only (stringify model_user) model_user in
  fst (create_random_user parse env two_users)
  = ok (text_result "Fake user created successfully: 3")
  /\ exists record,
       users_module (snd (create_random_user parse env two_users))
       = Some (JArr ([user_record 1 "Grace" "grace@example.com";
                      user_record 2 "Alan" "alan@example.com"] ++ [JObj record]))
       /\ obj_get record "id" = Some (JNum 42).
Proof.
  apply (@create_random_user_keeps_model_id
           (parse_only (stringify model_user) model_user)
           (sampling_env (stringify model_user)) two_users
           [user_record 1 "Grace" "grace@example.com"; user_record 2 "Alan" "alan@example.com"]
           (text_reply (stringify model_user)) (stringify model_user)
           [("name", JStr "Ada"); ("email", JStr "ada@example.com"); ("id", JNum 42)]
           (JNum 42)); try reflexivity.
  repeat constructor; simpl; intuition discriminate.
Defined.


End ServerCoverage.
